(** * similarityEngine.js: comparable-property ranking

    A shallow embedding of [src/similarityEngine.js] and proofs about its
    configuration merge, candidate filter, similarity score and ranking.

    Modelling conventions.
    - A JavaScript number is an exact rational or one of the three special
      values NaN, +Infinity, -Infinity.  Division by zero, NaN propagation
      and comparisons against NaN follow IEEE 754 / ECMAScript; the rounding
      of binary64 arithmetic is not modelled, and -0 is identified with 0.
    - A JavaScript value is [undefined], [null], a boolean, a number, a
      string or a plain object (a finite map from property names to values).
      Arrays appear only as the two fetched row lists.
    - What the engine gets from its host (the two data-provider queries, the
      default-configuration fetch, [JSON.parse] and the string-to-number
      conversion) is an interface, [Host]; every theorem holds for every
      host.
    - [console] output and the module-level [defaultAlgo] cache are state,
      threaded through a small state-and-exception monad.
    - [Array.prototype.sort] is a stable insertion sort driven by the
      comparator; on scores without NaN every stable sort gives the same
      list.
    - The host is typed: the default-configuration file holds the three
      groups as objects, the provider answers with lists of rows, and
      every rejected promise is the one exception [Rejected]. The
      untyped loader is [loadDefaultAlgoRaw].
    - Where rounding decides a statement, the function is given a second
      time on binary64 numbers, in module [Binary64]. *)

From Stdlib Require Import QArith Qabs Qminmax Qround Lqa Lia List Sorted.
From stdpp Require Import gmap strings list sorting pretty.
From Stdlib Require PrimFloat.

#[local] Set Warnings "-register-all".
#[local] Open Scope Q_scope.

(** ** JavaScript numbers *)

Inductive num : Type :=
  | NaN
  | PInf
  | NInf
  | Fin (q : Q).

Definition Qlt_bool (x y : Q) : bool := negb (Qle_bool y x).

Module Num.

Definition of_nat (n : nat) : num := Fin (inject_Z (Z.of_nat n)).

Definition isNaN (a : num) : bool :=
  match a with NaN => true | _ => false end.

(** Sign of a number that is not NaN ([Eq] for zero and for NaN). *)
Definition sign (a : num) : comparison :=
  match a with
  | NaN => Eq
  | PInf => Gt
  | NInf => Lt
  | Fin q => q ?= 0
  end.

Definition neg (a : num) : num :=
  match a with
  | NaN => NaN
  | PInf => NInf
  | NInf => PInf
  | Fin q => Fin (- q)
  end.

Definition add (a b : num) : num :=
  match a, b with
  | NaN, _ | _, NaN => NaN
  | PInf, NInf | NInf, PInf => NaN
  | PInf, _ | _, PInf => PInf
  | NInf, _ | _, NInf => NInf
  | Fin x, Fin y => Fin (x + y)
  end.

Definition sub (a b : num) : num := add a (neg b).

Definition mul (a b : num) : num :=
  match a, b with
  | NaN, _ | _, NaN => NaN
  | Fin x, Fin y => Fin (x * y)
  | PInf, c | c, PInf =>
      match sign c with Gt => PInf | Lt => NInf | Eq => NaN end
  | NInf, c | c, NInf =>
      match sign c with Gt => NInf | Lt => PInf | Eq => NaN end
  end.

(** [x / 0] is an infinity of the sign of [x], and NaN for [0 / 0]. *)
Definition div (a b : num) : num :=
  match a, b with
  | NaN, _ | _, NaN => NaN
  | (PInf | NInf), (PInf | NInf) => NaN
  | PInf, Fin y => if Qlt_bool y 0 then NInf else PInf
  | NInf, Fin y => if Qlt_bool y 0 then PInf else NInf
  | Fin _, (PInf | NInf) => Fin 0
  | Fin x, Fin y =>
      if Qeq_bool y 0
      then match x ?= 0 with Gt => PInf | Lt => NInf | Eq => NaN end
      else Fin (x / y)
  end.

(** [a <= b]; false as soon as one side is NaN. *)
Definition leb (a b : num) : bool :=
  match a, b with
  | NaN, _ | _, NaN => false
  | NInf, _ => true
  | _, PInf => true
  | PInf, _ => false
  | _, NInf => false
  | Fin x, Fin y => Qle_bool x y
  end.

(** [a < b]; false as soon as one side is NaN. *)
Definition ltb (a b : num) : bool :=
  match a, b with
  | NaN, _ | _, NaN => false
  | PInf, _ => false
  | _, NInf => false
  | NInf, _ => true
  | _, PInf => true
  | Fin x, Fin y => Qlt_bool x y
  end.

(** [a === b] on numbers: NaN differs from itself. *)
Definition eqb (a b : num) : bool :=
  match a, b with
  | PInf, PInf | NInf, NInf => true
  | Fin x, Fin y => Qeq_bool x y
  | _, _ => false
  end.

(** [Math.abs], [Math.max] and [Math.min] on numbers. *)
Definition abs (a : num) : num :=
  match a with
  | NaN => NaN
  | PInf | NInf => PInf
  | Fin q => Fin (Qabs q)
  end.

Definition max (a b : num) : num :=
  if isNaN a || isNaN b then NaN else if leb a b then b else a.

Definition min (a b : num) : num :=
  if isNaN a || isNaN b then NaN else if leb a b then a else b.

(** A number is falsy when it is zero or NaN. *)
Definition truthy (a : num) : bool :=
  match a with
  | NaN => false
  | PInf | NInf => true
  | Fin q => negb (Qeq_bool q 0)
  end.

(** [ToIntegerOrInfinity] on a finite number: truncation toward zero. *)
Definition trunc (q : Q) : Z := Z.quot (Qnum q) (Z.pos (Qden q)).

End Num.

(** ** JavaScript values *)

Inductive jsval : Type :=
  | JUndefined
  | JNull
  | JBool (b : bool)
  | JNum (n : num)
  | JStr (s : string)
  | JObj (props : gmap string jsval).

(** A plain object, as a map from property names to values. *)
Abbreviation obj := (gmap string jsval).

(** [o.k] on a plain object: [undefined] when the property is absent. *)
Definition prop (o : obj) (k : string) : jsval := default JUndefined (o !! k).

(** [ToBoolean]. *)
Definition truthy (v : jsval) : bool :=
  match v with
  | JUndefined | JNull => false
  | JBool b => b
  | JNum n => Num.truthy n
  | JStr s => negb (String.eqb s "")
  | JObj _ => true
  end.

(** The own enumerable properties that an object spread [{...v}] copies:
    those of an object, the characters of a string under their indices,
    nothing for the other values. *)
Fixpoint chars_from (i : nat) (s : string) : list (string * jsval) :=
  match s with
  | EmptyString => []
  | String c s' => (pretty i, JStr (String c EmptyString)) :: chars_from (S i) s'
  end.

Definition own_props (v : jsval) : obj :=
  match v with
  | JObj o => o
  | JStr s => list_to_map (chars_from 0 s)
  | _ => ∅
  end.

(** [{ ...base, ...v }]: the properties of [v] win. *)
Definition spread (base : obj) (v : jsval) : obj := own_props v ∪ base.

(** ** Records of the engine *)

(** The three parameter groups ([defaultAlgo], and the local variables
    [weights], [cutoffs], [priceBias] of [getSimilarProperties]). *)
Record AlgoConfig : Type := {
  weights : obj;
  cutoffs : obj;
  priceBias : obj
}.

(** A row of the data provider.  An absent field is [JUndefined]. *)
Record PropertyRecord : Type := {
  propid : jsval;
  imprvmainarea : jsval;
  prevvalmarket : jsval;
  prevvalland : jsval;
  imprvyearbuilt : jsval;
  legalabssubcode : jsval
}.

(** [{ ...r, similarity, baseSimilarity, priceBias: priceBiasValue }]. *)
Record ScoredCandidate : Type := {
  record : PropertyRecord;
  similarity : num;
  baseSimilarity : num;
  priceBiasValue : num
}.

(** The object returned by [getSimilarProperties]; [legal] is its
    [legalabssubcode] property. *)
Record ComparisonResult : Type := {
  target : PropertyRecord;
  legal : jsval;
  totalCandidates : nat;
  filteredCandidates : nat;
  comps : list ScoredCandidate
}.

(** The [options] argument; [opt_propid] is its [propid] property. An
    absent property is [JUndefined]. *)
Record Options : Type := {
  opt_propid : jsval;
  limit : jsval;
  customAlgo : jsval
}.

(** ** The host *)

Class Host : Type := {
  (** [ToNumber] on a string. *)
  StringToNumber : string -> num;
  (** [JSON.parse]; [None] when it throws a SyntaxError. *)
  JSON_parse : string -> option jsval;
  (** [fetch('./defaultAlgorithm.json')] then [res.json()], a file that
      holds the three groups; [None] when either rejects. *)
  fetch_defaultAlgorithm : option AlgoConfig;
  (** The rows answering the target query for a [propid]; [None] when the
      fetch or its decoding rejects. *)
  fetch_target : jsval -> option (list PropertyRecord);
  (** The rows answering the candidates query for a subdivision code and
      the excluded [propid]. *)
  fetch_candidates : jsval -> jsval -> option (list PropertyRecord)
}.

(** [ToNumber]. A plain object converts to NaN. *)
Definition ToNumber `{Host} (v : jsval) : num :=
  match v with
  | JUndefined => NaN
  | JNull => Fin 0
  | JBool b => if b then Fin 1 else Fin 0
  | JNum n => n
  | JStr s => StringToNumber s
  | JObj _ => NaN
  end.

Declare Scope num_scope.
Delimit Scope num_scope with num.
Infix "+" := Num.add : num_scope.
Infix "-" := Num.sub : num_scope.
Infix "*" := Num.mul : num_scope.
Infix "/" := Num.div : num_scope.
Infix "<=?" := Num.leb : num_scope.
Infix "<?" := Num.ltb : num_scope.

(** ** Effects: console, the [defaultAlgo] cache, exceptions *)

Inductive LogEntry : Type :=
  | ConsoleError (msg : string)
  | ConsoleWarn (msg : string).

Inductive Exn : Type :=
  | Error (msg : string)   (* [throw new Error(msg)] *)
  | TypeError              (* a property read on [null] *)
  | Rejected.              (* a rejected [fetch] or [json()] *)

Record Runtime : Type := {
  defaultAlgo : option AlgoConfig;   (* [null] until loaded *)
  console : list LogEntry
}.

Inductive outcome (A : Type) : Type :=
  | Returned (a : A)
  | Thrown (e : Exn).
Arguments Returned {A} a.
Arguments Thrown {A} e.

Definition M (A : Type) : Type := Runtime -> outcome A * Runtime.

#[local] Instance M_ret : MRet M := fun A a st => (Returned a, st).

#[local] Instance M_bind : MBind M := fun A B f m st =>
  match m st with
  | (Returned a, st') => f a st'
  | (Thrown e, st') => (Thrown e, st')
  end.

Definition throw {A} (e : Exn) : M A := fun st => (Thrown e, st).

Definition log (e : LogEntry) : M unit := fun st =>
  (Returned tt, {| defaultAlgo := defaultAlgo st; console := console st ++ [e] |}).

(** [await p] for a host promise: the value, or the rejection rethrown. *)
Definition await {A} (p : option A) : M A :=
  match p with
  | Some a => mret a
  | None => throw Rejected
  end.

(** The fallback of [loadDefaultAlgo], lines 13-17. *)
Definition fallbackAlgo : AlgoConfig := {|
  weights := {[ "area" := JNum (Fin 0.4); "market" := JNum (Fin 0.2);
                "land" := JNum (Fin 0.1); "year" := JNum (Fin 0.3) ]};
  cutoffs := {[ "areaPct" := JNum (Fin 0.1); "marketPct" := JNum (Fin 0.2);
                "landPct" := JNum (Fin 0.3); "yearDiff" := JNum (Fin 10) ]};
  priceBias := {[ "enabled" := JBool true; "weight" := JNum (Fin 0.15);
                  "fullBiasAt" := JNum (Fin 50) ]}
|}.

Section Engine.
Context `{Host}.

(** Lines 6-19. *)
Definition loadDefaultAlgo : M unit := fun st =>
  match defaultAlgo st with
  | Some _ => (Returned tt, st)
  | None =>
      match fetch_defaultAlgorithm with
      | Some algo =>
          (Returned tt, {| defaultAlgo := Some algo; console := console st |})
      | None =>
          (Returned tt,
           {| defaultAlgo := Some fallbackAlgo;
              console := console st ++
                [ConsoleError "Failed to load defaultAlgorithm.json, using fallback defaults."] |})
      end
  end.

(** Reading [defaultAlgo.weights] and its two siblings, lines 36-38. *)
Definition readDefaultAlgo : M AlgoConfig := fun st =>
  match defaultAlgo st with
  | Some algo => (Returned algo, st)
  | None => (Thrown TypeError, st)
  end.

(** Lines 22-24. *)
Definition relDiff (a b : jsval) : num :=
  (Num.abs (ToNumber a - ToNumber b) / Num.max (ToNumber a) (ToNumber b))%num.

(** *** Configuration resolution, lines 36-53 *)

(** Line 43-45: the override as an object. [None] when [JSON.parse]
    throws. *)
Definition parseAlgo (customAlgo : jsval) : option jsval :=
  match customAlgo with
  | JStr s => JSON_parse s
  | v => Some v
  end.

(** [algo.k]: throws ([None]) on [null] and [undefined]; a primitive
    has none of the three group names as a property. *)
Definition group (algo : jsval) (k : string) : option jsval :=
  match algo with
  | JUndefined | JNull => None
  | JObj o => Some (prop o k)
  | _ => Some JUndefined
  end.

(** [if (g) base = { ...base, ...g }]. *)
Definition mergeGroup (base : obj) (g : jsval) : obj :=
  if truthy g then spread base g else base.

(** The [try] block, lines 42-49, run on the three variables; the
    boolean tells whether it threw, and the configuration is the one the
    variables hold at that point. *)
Definition overrideAlgo (base : AlgoConfig) (customAlgo : jsval)
  : AlgoConfig * bool :=
  match parseAlgo customAlgo with
  | None => (base, true)
  | Some algo =>
      match group algo "weights" with
      | None => (base, true)
      | Some w =>
          let c1 := {| weights := mergeGroup (weights base) w;
                       cutoffs := cutoffs base;
                       priceBias := priceBias base |} in
          match group algo "cutoffs" with
          | None => (c1, true)
          | Some c =>
              let c2 := {| weights := weights c1;
                           cutoffs := mergeGroup (cutoffs c1) c;
                           priceBias := priceBias c1 |} in
              match group algo "priceBias" with
              | None => (c2, true)
              | Some p =>
                  ({| weights := weights c2;
                      cutoffs := cutoffs c2;
                      priceBias := mergeGroup (priceBias c2) p |}, false)
              end
          end
      end
  end.

Definition invalidAlgoWarning : LogEntry :=
  ConsoleWarn "Invalid custom algorithm JSON, using defaults.".

(** Lines 41-53. *)
Definition resolveAlgo (base : AlgoConfig) (customAlgo : jsval)
  : M AlgoConfig :=
  if truthy customAlgo then
    let '(algo, threw) := overrideAlgo base customAlgo in
    (if threw then log invalidAlgoWarning else mret tt);;
    mret algo
  else mret base.

(** *** Filter and score, lines 70-99 *)

(** Lines 70-72. *)
Definition availabilityFactor (priceBias : obj)
    (candidates : list PropertyRecord) : num :=
  if truthy (prop priceBias "enabled")
  then Num.min (Fin 1)
         (Num.of_nat (length candidates) / ToNumber (prop priceBias "fullBiasAt"))%num
  else Fin 0.

Definition yearGap (r t : PropertyRecord) : num :=
  Num.abs (ToNumber (imprvyearbuilt r) - ToNumber (imprvyearbuilt t))%num.

(** The predicate of [filter], lines 76-82. *)
Definition passesCutoffs (cutoffs : obj) (t r : PropertyRecord) : bool :=
  truthy (imprvmainarea r) && truthy (prevvalmarket r) &&
  truthy (prevvalland r) && truthy (imprvyearbuilt r) &&
  (relDiff (imprvmainarea r) (imprvmainarea t) <=? ToNumber (prop cutoffs "areaPct"))%num &&
  (relDiff (prevvalmarket r) (prevvalmarket t) <=? ToNumber (prop cutoffs "marketPct"))%num &&
  (relDiff (prevvalland r) (prevvalland t) <=? ToNumber (prop cutoffs "landPct"))%num &&
  (yearGap r t <=? ToNumber (prop cutoffs "yearDiff"))%num.

(** Lines 84-88. *)
Definition baseSimilarityOf (weights : obj) (t r : PropertyRecord) : num :=
  (ToNumber (prop weights "area") * relDiff (imprvmainarea r) (imprvmainarea t) +
   ToNumber (prop weights "market") * relDiff (prevvalmarket r) (prevvalmarket t) +
   ToNumber (prop weights "land") * relDiff (prevvalland r) (prevvalland t) +
   ToNumber (prop weights "year") * (yearGap r t / Fin 100))%num.

(** Lines 90-94. *)
Definition priceBiasValueOf (priceBias : obj) (t r : PropertyRecord) : num :=
  if truthy (prop priceBias "enabled") then
    let priceRatio := (ToNumber (prevvalmarket r) / ToNumber (prevvalmarket t))%num in
    Num.max (Fin 0) (priceRatio - Fin 1)%num
  else Fin 0.

(** The function mapped over the filtered rows, lines 83-99. *)
Definition scoreCandidate (weights priceBias : obj) (factor : num)
    (t r : PropertyRecord) : ScoredCandidate :=
  let base := baseSimilarityOf weights t r in
  let bias := priceBiasValueOf priceBias t r in
  {| record := r;
     similarity := (base + factor * ToNumber (prop priceBias "weight") * bias)%num;
     baseSimilarity := base;
     priceBiasValue := bias |}.

(** *** Ranking, lines 100-101 *)

(** The comparator of line 100. *)
Definition bySimilarity (a b : ScoredCandidate) : num :=
  (similarity a - similarity b)%num.

(** [Array.prototype.sort] as a stable insertion sort: [x] moves behind
    [y] only when [comparefn(x, y) > 0]; a NaN answer counts as [0]. *)
Fixpoint sort_insert {A} (comparefn : A -> A -> num) (x : A) (l : list A)
  : list A :=
  match l with
  | [] => [x]
  | y :: l' =>
      if (Fin 0 <? comparefn x y)%num
      then y :: sort_insert comparefn x l'
      else x :: y :: l'
  end.

Fixpoint sort {A} (comparefn : A -> A -> num) (l : list A) : list A :=
  match l with
  | [] => []
  | x :: l' => sort_insert comparefn x (sort comparefn l')
  end.

(** The index at which [slice(0, end)] stops, for an array of length
    [len]: [ToIntegerOrInfinity(end)], counted from the back when
    negative, clamped to [0 .. len]. *)
Definition sliceEnd (len : Z) (end_ : jsval) : Z :=
  match end_ with
  | JUndefined => len
  | _ =>
      match ToNumber end_ with
      | NaN => 0
      | PInf => len
      | NInf => 0
      | Fin q =>
          let k := Num.trunc q in
          if (k <? 0)%Z then Z.max (len + k) 0 else Z.min k len
      end
  end.

Definition slice0 {A} (l : list A) (end_ : jsval) : list A :=
  firstn (Z.to_nat (sliceEnd (Z.of_nat (length l)) end_)) l.

(** Line 33. *)
Definition LIMIT (options : Options) : jsval :=
  if truthy (limit options) then limit options else JNum (Fin 10).

(** The rows that pass the filter, lines 75-82. *)
Definition filterCandidates (cutoffs : obj) (t : PropertyRecord)
    (candidates : list PropertyRecord) : list PropertyRecord :=
  List.filter (passesCutoffs cutoffs t) candidates.

(** [scored], lines 75-101. *)
Definition scored (algo : AlgoConfig) (lim : jsval) (t : PropertyRecord)
    (candidates : list PropertyRecord) : list ScoredCandidate :=
  let factor := availabilityFactor (priceBias algo) candidates in
  slice0
    (sort bySimilarity
       (map (scoreCandidate (weights algo) (priceBias algo) factor t)
          (filterCandidates (cutoffs algo) t candidates)))
    lim.

(** Lines 70-109, once both fetches have answered. *)
Definition compare (algo : AlgoConfig) (lim : jsval) (t : PropertyRecord)
    (candidates : list PropertyRecord) : ComparisonResult :=
  let scored := scored algo lim t candidates in
  {| target := t;
     legal := legalabssubcode t;
     totalCandidates := length candidates;
     filteredCandidates := length scored;
     comps := scored |}.

(** Lines 27-110. *)
Definition getSimilarProperties (options : option Options)
  : M ComparisonResult :=
  loadDefaultAlgo;;
  match options with
  | None => throw (Error "propid is required in options")
  | Some options =>
      if negb (truthy (opt_propid options))
      then throw (Error "propid is required in options")
      else
        base ← readDefaultAlgo;
        algo ← resolveAlgo base (customAlgo options);
        targetData ← await (fetch_target (opt_propid options));
        match targetData with
        | [] => throw (Error "Target property not found")
        | t :: _ =>
            candidates ← await (fetch_candidates (legalabssubcode t)
                                  (opt_propid options));
            mret (compare algo (LIMIT options) t candidates)
        end
  end.

End Engine.

(** ** Vocabulary of the statements *)

(** Scores never decrease along the list. *)
Definition nondecreasing (l : list ScoredCandidate) : Prop :=
  StronglySorted (fun a b => Num.leb (similarity a) (similarity b) = true) l.

(** The candidates of a list whose score is [v], in order. *)
Definition withScore (v : num) (l : list ScoredCandidate) : list ScoredCandidate :=
  List.filter (fun c => Num.eqb (similarity c) v) l.

(** A field as the data model has it: a number, or missing. *)
Definition number_or_absent (v : jsval) : Prop :=
  match v with
  | JUndefined | JNull | JNum _ => True
  | _ => False
  end.

(** A field that is there and is not zero. *)
Definition present_nonzero (v : jsval) : Prop :=
  match v with
  | JNum (Fin q) => ~ q == 0
  | JNum _ => True
  | _ => False
  end.

(** A limit that is the positive integer [n]. *)
Definition positive_integer (v : jsval) (n : nat) : Prop :=
  (0 < n)%nat /\ exists q, v = JNum (Fin q) /\ q == inject_Z (Z.of_nat n).

(** A resolved group against its base group and the value [g] that the
    override has under the group's name ([None] when it has none): an
    override group that is an object replaces exactly its own keys. *)
Definition group_resolved (base resolved : obj) (g : option jsval) : Prop :=
  match g with
  | None => resolved = base
  | Some (JObj go) =>
      forall k, resolved !! k =
                match go !! k with Some v => Some v | None => base !! k end
  | Some (JStr _) => True
  | Some _ => resolved = base
  end.

(** A row whose four attributes are numbers or missing. *)
Definition typed_row (r : PropertyRecord) : Prop :=
  number_or_absent (imprvmainarea r) /\ number_or_absent (prevvalmarket r) /\
  number_or_absent (prevvalland r) /\ number_or_absent (imprvyearbuilt r).

(** The limit of a request is [n]: the default 10 when the caller gives
    none, the caller's positive integer otherwise. *)
Definition requests (o : Options) (n : nat) : Prop :=
  (limit o = JUndefined /\ n = 10%nat) \/ positive_integer (limit o) n.

(** A request without its limit, and one without its override. *)
Definition withoutLimit (o : Options) : Options := {|
  opt_propid := opt_propid o;
  limit := JUndefined;
  customAlgo := customAlgo o
|}.

Definition withoutCustomAlgo (o : Options) : Options := {|
  opt_propid := opt_propid o;
  limit := limit o;
  customAlgo := JUndefined
|}.

(** A number that is not below zero (NaN among them). *)
Definition not_negative (a : num) : Prop := Num.ltb a (Fin 0) = false.

(** The larger of two rationals, as [Math.max] picks it. *)
Definition larger (a b : Q) : Q := if Qle_bool a b then b else a.

(** The comparator [a.key - b.key], and the order it sorts by. *)
Definition byKey {A} (key : A -> num) (a b : A) : num := (key a - key b)%num.

Definition keyLe {A} (key : A -> num) (a b : A) : Prop :=
  Num.leb (key a) (key b) = true.

(** A value that converts to a finite number, and one that converts to
    a positive finite number. *)
Definition finite_number `{Host} (v : jsval) : Prop :=
  exists q, ToNumber v = Fin q.

Definition positive_number `{Host} (v : jsval) : Prop :=
  exists q, ToNumber v = Fin q /\ 0 < q.

(** A configuration and a target as the data model has them: finite
    weights and cutoffs, a finite bias weight, a [fullBiasAt] that is a
    number, and a target with positive area and values and a finite
    year. *)
Definition well_formed `{Host} (algo : AlgoConfig) (t : PropertyRecord)
  : Prop :=
  (finite_number (prop (weights algo) "area") /\
   finite_number (prop (weights algo) "market") /\
   finite_number (prop (weights algo) "land") /\
   finite_number (prop (weights algo) "year")) /\
  (finite_number (prop (cutoffs algo) "areaPct") /\
   finite_number (prop (cutoffs algo) "marketPct") /\
   finite_number (prop (cutoffs algo) "landPct") /\
   finite_number (prop (cutoffs algo) "yearDiff")) /\
  (finite_number (prop (priceBias algo) "weight") /\
   ToNumber (prop (priceBias algo) "fullBiasAt") <> NaN) /\
  (positive_number (imprvmainarea t) /\
   positive_number (prevvalmarket t) /\
   positive_number (prevvalland t) /\
   finite_number (imprvyearbuilt t)).

(** ** Sample data *)

Definition sampleTarget : PropertyRecord := {|
  propid := JStr "T-1";
  imprvmainarea := JNum (Fin 2000);
  prevvalmarket := JNum (Fin 300000);
  prevvalland := JNum (Fin 50000);
  imprvyearbuilt := JNum (Fin 2005);
  legalabssubcode := JStr "S0042"
|}.

Definition sampleCandidate (id : string) : PropertyRecord := {|
  propid := JStr id;
  imprvmainarea := JNum (Fin 2050);
  prevvalmarket := JNum (Fin 310000);
  prevvalland := JNum (Fin 51000);
  imprvyearbuilt := JNum (Fin 2006);
  legalabssubcode := JUndefined
|}.

(** A cheaper and older neighbour. *)
Definition cheapCandidate (id : string) : PropertyRecord := {|
  propid := JStr id;
  imprvmainarea := JNum (Fin 1900);
  prevvalmarket := JNum (Fin 280000);
  prevvalland := JNum (Fin 48000);
  imprvyearbuilt := JNum (Fin 2001);
  legalabssubcode := JUndefined
|}.

(** A host for the examples: the provider answers every target query with
    [targets] and every candidates query with [candidates], the default
    configuration file is unreachable, [JSON.parse] knows the texts of
    [json] (the examples pass it no other well-formed text), and the
    examples convert no string to a number. *)
Definition sampleHost (json : gmap string jsval)
    (targets candidates : list PropertyRecord) : Host := {|
  StringToNumber := fun _ => NaN;
  JSON_parse := fun s => json !! s;
  fetch_defaultAlgorithm := None;
  fetch_target := fun _ => Some targets;
  fetch_candidates := fun _ _ => Some candidates
|}.

Definition freshRuntime : Runtime := {| defaultAlgo := None; console := [] |}.

Definition sampleOptions (lim custom : jsval) : Options := {|
  opt_propid := JStr "T-1";
  limit := lim;
  customAlgo := custom
|}.

Definition biasDisabled : obj :=
  {[ "enabled" := JBool false; "weight" := JNum (Fin 0.15);
     "fullBiasAt" := JNum (Fin 50) ]}.

Definition twoCandidates : list PropertyRecord :=
  [sampleCandidate "A"; cheapCandidate "B"].

Definition twoCandidateHost : Host :=
  sampleHost ∅ [sampleTarget] twoCandidates.

Definition defaultRequest : Options := sampleOptions JUndefined JUndefined.

(** The fallback configuration with the price bias switched off. *)
Definition unbiasedAlgo : AlgoConfig := {|
  weights := weights fallbackAlgo;
  cutoffs := cutoffs fallbackAlgo;
  priceBias := biasDisabled
|}.

(** The override of the merge example: [{ weights: { area: 0.9 } }]. *)
Definition areaOverride : obj :=
  {[ "weights" := JObj {[ "area" := JNum (Fin 0.9) ]} ]}.

(** A target that none of the sample candidates resembles. *)
Definition distantTarget : PropertyRecord := {|
  propid := JStr "T-9";
  imprvmainarea := JNum (Fin 9000);
  prevvalmarket := JNum (Fin 900000);
  prevvalland := JNum (Fin 90000);
  imprvyearbuilt := JNum (Fin 1950);
  legalabssubcode := JStr "S0042"
|}.

(** ** Vocabulary of the further properties *)

(** The two errors that [getSimilarProperties] throws itself. *)
Definition propidRequired : Exn := Error "propid is required in options".

Definition targetNotFound : Exn := Error "Target property not found".

(** What [loadDefaultAlgo] logs when the file cannot be loaded. *)
Definition loadError : LogEntry :=
  ConsoleError "Failed to load defaultAlgorithm.json, using fallback defaults.".

(** A host that differs from [h] in the default-configuration file only. *)
Definition withDefaultFile (h : Host) (file : option AlgoConfig) : Host := {|
  StringToNumber := @StringToNumber h;
  JSON_parse := @JSON_parse h;
  fetch_defaultAlgorithm := file;
  fetch_target := @fetch_target h;
  fetch_candidates := @fetch_candidates h
|}.

(** The configuration that resolution answers with. *)
Definition resolved `{Host} (base : AlgoConfig) (custom : jsval) : AlgoConfig :=
  if truthy custom then (overrideAlgo base custom).1 else base.

(** The outcome of a request whose base configuration is [base]. *)
Definition answer `{Host} (base : AlgoConfig) (options : option Options)
  : outcome ComparisonResult :=
  match options with
  | None => Thrown propidRequired
  | Some o =>
      if truthy (opt_propid o) then
        match fetch_target (opt_propid o) with
        | None => Thrown Rejected
        | Some [] => Thrown targetNotFound
        | Some (t :: _) =>
            match fetch_candidates (legalabssubcode t) (opt_propid o) with
            | None => Thrown Rejected
            | Some candidates =>
                Returned (compare (resolved base (customAlgo o)) (LIMIT o)
                            t candidates)
            end
        end
      else Thrown propidRequired
  end.

(** What a request appends to the console after the load: the warning of
    an override that threw, or nothing. *)
Definition warnings `{Host} (base : AlgoConfig) (options : option Options)
  : list LogEntry :=
  match options with
  | None => []
  | Some o =>
      if truthy (opt_propid o) && truthy (customAlgo o) &&
         (overrideAlgo base (customAlgo o)).2
      then [invalidAlgoWarning] else []
  end.

(** The base configuration of a request that starts in [st]: the cached
    one, else the file's, else the fallback. *)
Definition baseOf `{Host} (st : Runtime) : AlgoConfig :=
  match defaultAlgo st with
  | Some algo => algo
  | None => default fallbackAlgo fetch_defaultAlgorithm
  end.

(** What the load appends to the console. *)
Definition loadLog `{Host} (st : Runtime) : list LogEntry :=
  match defaultAlgo st, fetch_defaultAlgorithm with
  | None, None => [loadError]
  | _, _ => []
  end.

(** A target that lacks one of the four attributes, or has one that is
    no number. *)
Definition lacks_attribute `{Host} (t : PropertyRecord) : Prop :=
  ToNumber (imprvmainarea t) = NaN \/ ToNumber (prevvalmarket t) = NaN \/
  ToNumber (prevvalland t) = NaN \/ ToNumber (imprvyearbuilt t) = NaN.

(** Every cutoff of [c1] is at most the one of [c2]. *)
Definition cutoffs_within `{Host} (c1 c2 : obj) : Prop :=
  Num.leb (ToNumber (prop c1 "areaPct")) (ToNumber (prop c2 "areaPct")) = true /\
  Num.leb (ToNumber (prop c1 "marketPct")) (ToNumber (prop c2 "marketPct")) = true /\
  Num.leb (ToNumber (prop c1 "landPct")) (ToNumber (prop c2 "landPct")) = true /\
  Num.leb (ToNumber (prop c1 "yearDiff")) (ToNumber (prop c2 "yearDiff")) = true.

(** Cutoffs that are numbers not below zero. *)
Definition nonnegative_cutoffs `{Host} (c : obj) : Prop :=
  Num.leb (Fin 0) (ToNumber (prop c "areaPct")) = true /\
  Num.leb (Fin 0) (ToNumber (prop c "marketPct")) = true /\
  Num.leb (Fin 0) (ToNumber (prop c "landPct")) = true /\
  Num.leb (Fin 0) (ToNumber (prop c "yearDiff")) = true.

(** A row whose four attributes are positive numbers. *)
Definition positive_attributes (t : PropertyRecord) : Prop :=
  exists a m l y,
    imprvmainarea t = JNum (Fin a) /\ prevvalmarket t = JNum (Fin m) /\
    prevvalland t = JNum (Fin l) /\ imprvyearbuilt t = JNum (Fin y) /\
    0 < a /\ 0 < m /\ 0 < l /\ 0 < y.

(** Two rows with the same four attributes. *)
Definition same_attributes (r t : PropertyRecord) : Prop :=
  imprvmainarea r = imprvmainarea t /\ prevvalmarket r = prevvalmarket t /\
  prevvalland r = prevvalland t /\ imprvyearbuilt r = imprvyearbuilt t.

(** Weights that are finite numbers. *)
Definition finite_weights `{Host} (w : obj) : Prop :=
  finite_number (prop w "area") /\ finite_number (prop w "market") /\
  finite_number (prop w "land") /\ finite_number (prop w "year").

(** A target without its year built, and a twin of the sample target
    among the candidates. *)
Definition undatedTarget : PropertyRecord := {|
  propid := JStr "T-2";
  imprvmainarea := JNum (Fin 2000);
  prevvalmarket := JNum (Fin 300000);
  prevvalland := JNum (Fin 50000);
  imprvyearbuilt := JUndefined;
  legalabssubcode := JStr "S0042"
|}.

Definition twinCandidate : PropertyRecord := {|
  propid := JStr "C";
  imprvmainarea := JNum (Fin 2000);
  prevvalmarket := JNum (Fin 300000);
  prevvalland := JNum (Fin 50000);
  imprvyearbuilt := JNum (Fin 2005);
  legalabssubcode := JUndefined
|}.

(** Cutoffs twice as wide as the fallback's. *)
Definition wideCutoffs : obj :=
  {[ "areaPct" := JNum (Fin 0.2); "marketPct" := JNum (Fin 0.4);
     "landPct" := JNum (Fin 0.6); "yearDiff" := JNum (Fin 20) ]}.

(** [null] and [undefined], on which a property read throws. *)
Definition nullish (v : jsval) : bool :=
  match v with
  | JUndefined | JNull => true
  | _ => false
  end.

(** A runtime whose cache holds the fallback configuration. *)
Definition warmRuntime : Runtime :=
  {| defaultAlgo := Some fallbackAlgo; console := [] |}.

(** A host whose provider knows no target. *)
Definition noTargetHost : Host := sampleHost ∅ [] [].

(** A host whose [JSON.parse] knows the text [null]. *)
Definition nullTextHost : Host :=
  sampleHost {[ "null" := JNull ]} [sampleTarget] twoCandidates.

(** The area override with a note beside its groups. *)
Definition annotatedOverride : obj :=
  <[ "note" := JStr "reviewed" ]> areaOverride.

(** The sample candidates and a twin of the sample target. *)
Definition threeCandidates : list PropertyRecord :=
  twinCandidate :: twoCandidates.

(** ** Binary64 *)

(** Lines 22-24 on binary64 numbers, with the rounding of IEEE 754. *)
Module Binary64.
Import PrimFloat.

(** [Math.max]: NaN if an operand is NaN, and [+0] above [-0]. *)
Definition Math_max (a b : float) : float :=
  if is_nan a || is_nan b then nan
  else if ltb a b then b
  else if ltb b a then a
  else if get_sign a then b else a.

Definition relDiff (a b : float) : float :=
  div (abs (sub a b)) (Math_max a b).

(** [2^54]. *)
Definition two54 : float := 18014398509481984%float.

End Binary64.

(** ** The loader on untyped values *)

(** A configuration as the object it is. *)
Definition algoValue (algo : AlgoConfig) : jsval :=
  JObj {[ "weights" := JObj (weights algo);
          "cutoffs" := JObj (cutoffs algo);
          "priceBias" := JObj (priceBias algo) ]}.

(** Lines 6-19 on the module variable itself: [cache] is [defaultAlgo],
    [null] at first, and [file] is what [res.json()] answers, whatever
    value that is ([None] when the fetch or the decoding rejects). The
    result is the new [defaultAlgo] and what is logged. *)
Definition loadDefaultAlgoRaw (file : option jsval) (cache : jsval)
  : jsval * list LogEntry :=
  if truthy cache then (cache, [])
  else match file with
       | Some v => (v, [])
       | None => (algoValue fallbackAlgo, [loadError])
       end.

(** Calls of the loader one after the other, each with the answer the
    file gives at that time. *)
Fixpoint loadAll (files : list (option jsval)) (cache : jsval)
  : jsval * list LogEntry :=
  match files with
  | [] => (cache, [])
  | file :: files' =>
      let '(cache1, log1) := loadDefaultAlgoRaw file cache in
      let '(cache2, log2) := loadAll files' cache1 in
      (cache2, log1 ++ log2)
  end.

(** The cache of a runtime as a value. *)
Definition cacheValue (st : Runtime) : jsval :=
  match defaultAlgo st with
  | Some algo => algoValue algo
  | None => JNull
  end.

(** * Proofs *)

(** ** Numbers *)

Module NumFacts.

Lemma Qlt_bool_iff x y : Qlt_bool x y = true <-> x < y.
Proof.
  unfold Qlt_bool. rewrite negb_true_iff.
  split.
  - intros Hle. apply Qnot_le_lt. intros Hy.
    apply Qle_bool_iff in Hy. congruence.
  - intros Hlt. destruct (Qle_bool y x) eqn:E; [|reflexivity].
    apply Qle_bool_iff in E. lra.
Qed.

Lemma Qlt_bool_false x y : Qlt_bool x y = false <-> y <= x.
Proof.
  unfold Qlt_bool. rewrite negb_false_iff. apply Qle_bool_iff.
Qed.

Lemma Qle_bool_false x y : Qle_bool x y = false <-> y < x.
Proof.
  rewrite <- Qlt_bool_iff. unfold Qlt_bool.
  destruct (Qle_bool x y); simpl; split; congruence.
Qed.

Lemma Qeq_bool_false x y : Qeq_bool x y = false <-> ~ x == y.
Proof.
  split.
  - intros E Heq. apply Qeq_bool_iff in Heq. congruence.
  - intros Hne. destruct (Qeq_bool x y) eqn:E; [|reflexivity].
    apply Qeq_bool_iff in E. contradiction.
Qed.

(** The comparator [a - b] is positive exactly when [b < a]. *)
Lemma ltb_sub a b : Num.ltb (Fin 0) (a - b)%num = Num.ltb b a.
Proof.
  destruct a as [| | |x], b as [| | |y]; simpl; try reflexivity.
  destruct (Qlt_bool y x) eqn:E.
  - apply Qlt_bool_iff in E. apply Qlt_bool_iff. lra.
  - apply Qlt_bool_false in E. apply Qlt_bool_false. lra.
Qed.

Lemma ltb_leb a b : Num.ltb a b = true -> Num.leb a b = true.
Proof.
  destruct a as [| | |x], b as [| | |y]; simpl; try congruence.
  rewrite Qlt_bool_iff, Qle_bool_iff. lra.
Qed.

(** Numbers other than NaN are totally ordered. *)
Lemma not_ltb_leb a b :
  a <> NaN -> b <> NaN -> Num.ltb b a = false -> Num.leb a b = true.
Proof.
  destruct a as [| | |x], b as [| | |y]; simpl; try congruence.
  rewrite Qlt_bool_false, Qle_bool_iff. lra.
Qed.

Lemma leb_trans a b c :
  Num.leb a b = true -> Num.leb b c = true -> Num.leb a c = true.
Proof.
  destruct a as [| | |x], b as [| | |y], c as [| | |z]; simpl; try congruence.
  rewrite !Qle_bool_iff. lra.
Qed.

Lemma eqb_eqb_not_ltb a b v :
  Num.eqb a v = true -> Num.eqb b v = true -> Num.ltb b a = false.
Proof.
  destruct a as [| | |x], b as [| | |y], v as [| | |z]; simpl; try congruence.
  rewrite !Qeq_bool_iff, Qlt_bool_false. lra.
Qed.

Lemma leb_not_NaN_l a b : Num.leb a b = true -> a <> NaN.
Proof. destruct a; simpl; congruence. Qed.

Lemma leb_not_NaN_r a b : Num.leb a b = true -> b <> NaN.
Proof. destruct a, b; simpl; congruence. Qed.

(** Truncating a rational that is an integer gives that integer. *)
Lemma trunc_integer q (z : Z) : q == inject_Z z -> Num.trunc q = z.
Proof.
  destruct q as [a b]. unfold Qeq, Num.trunc. simpl.
  intros E. rewrite Z.mul_1_r in E. subst a.
  apply Z.quot_mul. discriminate.
Qed.

Lemma leb_0_not_negative a : Num.leb (Fin 0) a = true -> not_negative a.
Proof.
  unfold not_negative. destruct a as [| | |x]; simpl; try congruence.
  rewrite Qle_bool_iff, Qlt_bool_false. lra.
Qed.

Lemma sign_not_negative x : 0 <= x -> (x ?= 0) <> Lt.
Proof.
  intros Hx E. apply Qlt_alt in E. lra.
Qed.

Lemma mul_not_negative a b :
  not_negative a -> not_negative b -> not_negative (a * b)%num.
Proof.
  unfold not_negative.
  destruct a as [| | |x], b as [| | |y]; simpl; try congruence.
  - rewrite Qlt_bool_false. intros _ Hy.
    pose proof (sign_not_negative y Hy). by destruct (y ?= 0).
  - rewrite Qlt_bool_false. intros Hx _.
    pose proof (sign_not_negative x Hx). by destruct (x ?= 0).
  - rewrite !Qlt_bool_false. apply Qmult_le_0_compat.
Qed.

Lemma max_0_not_negative a : not_negative (Num.max (Fin 0) a).
Proof.
  unfold not_negative, Num.max.
  destruct a as [| | |x]; simpl; try reflexivity.
  destruct (Qle_bool 0 x) eqn:E; simpl.
  - apply Qle_bool_iff in E. by apply Qlt_bool_false.
  - reflexivity.
Qed.

(** Adding a number that is not negative never lowers a number. *)
Lemma add_not_negative_not_ltb a d :
  not_negative d -> Num.ltb (a + d)%num a = false.
Proof.
  unfold not_negative.
  destruct a as [| | |x], d as [| | |y]; simpl; try congruence.
  rewrite !Qlt_bool_false. lra.
Qed.

Lemma add_not_negative_leb a d :
  not_negative d -> (a + d)%num <> NaN -> Num.leb a (a + d)%num = true.
Proof.
  unfold not_negative.
  destruct a as [| | |x], d as [| | |y]; simpl; try congruence.
  rewrite Qlt_bool_false, Qle_bool_iff. lra.
Qed.

End NumFacts.

(** ** Sorting and slicing *)

Section Ranking.
Context {A : Type} (key : A -> num).

#[local] Abbreviation byKey := (byKey key).
#[local] Abbreviation le := (keyLe key).

Lemma sort_insert_perm x l : sort_insert byKey x l ≡ₚ x :: l.
Proof.
  induction l as [|y l IH]; cbn [sort_insert]; [reflexivity|].
  destruct (Num.ltb (Fin 0) (byKey x y)); [|reflexivity].
  rewrite IH. apply Permutation_swap.
Qed.

Lemma sort_perm l : sort byKey l ≡ₚ l.
Proof.
  induction l as [|x l IH]; cbn [sort]; [reflexivity|].
  rewrite sort_insert_perm. by rewrite IH.
Qed.

Lemma sort_length l : length (sort byKey l) = length l.
Proof. apply Permutation_length, sort_perm. Qed.

Lemma sort_insert_sorted x l :
  key x <> NaN -> Forall (fun y => key y <> NaN) l ->
  StronglySorted le l -> StronglySorted le (sort_insert byKey x l).
Proof.
  intros Hx Hl Hs. induction Hs as [|y l Hs IH Hy]; cbn [sort_insert].
  - repeat constructor.
  - apply Forall_cons in Hl as [Hyn Hl].
    unfold byKey at 1. rewrite NumFacts.ltb_sub.
    destruct (Num.ltb (key y) (key x)) eqn:E.
    + constructor; [by apply IH|].
      rewrite sort_insert_perm. constructor; [|done].
      by apply NumFacts.ltb_leb.
    + assert (Hxy : le x y) by by apply NumFacts.not_ltb_leb.
      constructor; [by constructor|].
      constructor; [done|].
      eapply Forall_impl; [exact Hy|].
      intros z Hz. eapply NumFacts.leb_trans; eauto.
Qed.

Lemma sort_sorted l :
  Forall (fun y => key y <> NaN) l -> StronglySorted le (sort byKey l).
Proof.
  induction l as [|x l IH]; cbn [sort]; intros Hl; [constructor|].
  apply Forall_cons in Hl as [Hx Hl].
  apply sort_insert_sorted; [done| |by apply IH].
  by rewrite sort_perm.
Qed.

(** Stability: the elements of any one score keep their order. *)
Lemma sort_insert_stable v x l :
  List.filter (fun c => Num.eqb (key c) v) (sort_insert byKey x l) =
  List.filter (fun c => Num.eqb (key c) v) (x :: l).
Proof.
  induction l as [|y l IH]; [reflexivity|].
  cbn [sort_insert]. unfold byKey at 1. rewrite NumFacts.ltb_sub.
  destruct (Num.ltb (key y) (key x)) eqn:E; [|reflexivity].
  cbn [List.filter] in *. rewrite IH.
  destruct (Num.eqb (key x) v) eqn:Ex, (Num.eqb (key y) v) eqn:Ey;
    try reflexivity.
  pose proof (NumFacts.eqb_eqb_not_ltb _ _ _ Ex Ey). congruence.
Qed.

Lemma sort_stable v l :
  List.filter (fun c => Num.eqb (key c) v) (sort byKey l) =
  List.filter (fun c => Num.eqb (key c) v) l.
Proof.
  induction l as [|x l IH]; [reflexivity|].
  cbn [sort]. rewrite sort_insert_stable.
  cbn [List.filter]. by rewrite IH.
Qed.

End Ranking.

Section SliceFacts.
Context `{Host}.

Lemma sliceEnd_integer len (n : nat) q :
  q == inject_Z (Z.of_nat n) ->
  sliceEnd len (JNum (Fin q)) = Z.min (Z.of_nat n) len.
Proof.
  intros Hq. unfold sliceEnd. cbn [ToNumber].
  rewrite (NumFacts.trunc_integer _ _ Hq).
  destruct (Z.ltb_spec (Z.of_nat n) 0); [lia|reflexivity].
Qed.

Lemma slice0_integer {A} (l : list A) (n : nat) q :
  q == inject_Z (Z.of_nat n) -> slice0 l (JNum (Fin q)) = firstn n l.
Proof.
  intros Hq. unfold slice0. rewrite (sliceEnd_integer _ _ _ Hq).
  destruct (Nat.le_ge_cases n (length l)).
  - f_equal. lia.
  - rewrite !firstn_all2; [reflexivity|lia|lia].
Qed.

Lemma slice0_prefix {A} (l : list A) lim : slice0 l lim `prefix_of` l.
Proof. unfold slice0. apply prefix_take. Qed.

Lemma LIMIT_falsy o : truthy (limit o) = false -> LIMIT o = JNum (Fin 10).
Proof. unfold LIMIT. by intros ->. Qed.

Lemma LIMIT_positive_integer o n :
  positive_integer (limit o) n -> LIMIT o = limit o.
Proof.
  intros [Hn (q & Hq & Hz)]. unfold LIMIT. rewrite Hq. cbn.
  destruct (Qeq_bool q 0) eqn:E; [|reflexivity].
  apply Qeq_bool_iff in E. rewrite E in Hz.
  unfold Qeq in Hz. simpl in Hz. lia.
Qed.

End SliceFacts.

(** ** The shape of a run *)

Section Runs.
Context `{Host}.

Lemma loadDefaultAlgo_Returned st :
  exists st1 base, loadDefaultAlgo st = (Returned tt, st1) /\
                   defaultAlgo st1 = Some base.
Proof.
  unfold loadDefaultAlgo.
  destruct (defaultAlgo st) eqn:E; [by eauto|].
  destruct fetch_defaultAlgorithm; eauto.
Qed.

(** Resolution never throws: it answers with a configuration and leaves
    the cache alone. *)
Lemma resolveAlgo_Returned base custom st :
  exists algo st1, resolveAlgo base custom st = (Returned algo, st1) /\
                   defaultAlgo st1 = defaultAlgo st.
Proof.
  unfold resolveAlgo.
  destruct (truthy custom); [|by eauto].
  destruct (overrideAlgo base custom) as [algo [|]]; by eauto.
Qed.

(** A run that returns has read a target and its candidates, and its
    result is [compare] on them. *)
Lemma getSimilarProperties_Returned options st res st' :
  getSimilarProperties options st = (Returned res, st') ->
  exists o base algo st1 t rest candidates,
    options = Some o /\
    truthy (opt_propid o) = true /\
    loadDefaultAlgo st = (Returned tt, st1) /\
    defaultAlgo st1 = Some base /\
    resolveAlgo base (customAlgo o) st1 = (Returned algo, st') /\
    fetch_target (opt_propid o) = Some (t :: rest) /\
    fetch_candidates (legalabssubcode t) (opt_propid o) = Some candidates /\
    res = compare algo (LIMIT o) t candidates.
Proof.
  unfold getSimilarProperties.
  destruct (loadDefaultAlgo_Returned st) as (st1 & base & Hload & Hbase).
  unfold mbind, M_bind at 1. rewrite Hload.
  destruct options as [o|]; [|discriminate].
  destruct (truthy (opt_propid o)) eqn:Hid; [|discriminate]. cbn [negb].
  unfold mbind, M_bind at 1, readDefaultAlgo. rewrite Hbase.
  unfold M_bind at 1.
  destruct (resolveAlgo base (customAlgo o) st1) as [[algo|e] st2] eqn:Hres;
    [|discriminate].
  unfold M_bind at 1, await.
  destruct (fetch_target (opt_propid o)) as [[|t rest]|] eqn:Ht;
    try discriminate.
  unfold mret, M_ret at 1. unfold M_bind at 1.
  destruct (fetch_candidates (legalabssubcode t) (opt_propid o))
    as [candidates|] eqn:Hc; [|discriminate].
  unfold mret, M_ret. intros [= <- <-].
  by exists o, base, algo, st1, t, rest, candidates.
Qed.

End Runs.

(** ** The relative difference *)

Section RelDiff.
Context `{Host}.

Lemma larger_Qmax a b : larger a b == Qmax a b.
Proof.
  unfold larger. destruct (Qle_bool a b) eqn:E.
  - apply Qle_bool_iff in E. symmetry. by apply Q.max_r.
  - apply NumFacts.Qle_bool_false in E. symmetry. apply Q.max_l. lra.
Qed.

Lemma larger_comm a b : larger a b == larger b a.
Proof. rewrite !larger_Qmax. apply Q.max_comm. Qed.

Lemma larger_pos a b : 0 < a -> 0 < b -> 0 < larger a b.
Proof. unfold larger. by destruct (Qle_bool a b). Qed.

Lemma relDiff_Fin a b :
  0 < a -> 0 < b ->
  relDiff (JNum (Fin a)) (JNum (Fin b)) = Fin (Qabs (a - b) / larger a b).
Proof.
  intros Ha Hb. unfold relDiff, larger. cbn.
  destruct (Qle_bool a b) eqn:E; cbn.
  - destruct (Qeq_bool b 0) eqn:E0; [|reflexivity].
    apply Qeq_bool_iff in E0. lra.
  - destruct (Qeq_bool a 0) eqn:E0; [|reflexivity].
    apply Qeq_bool_iff in E0. lra.
Qed.

Lemma Qabs_diff_lt_larger a b :
  0 < a -> 0 < b -> Qabs (a - b) < larger a b.
Proof.
  intros Ha Hb. unfold larger.
  destruct (Qle_bool a b) eqn:E.
  - apply Qle_bool_iff in E. rewrite Qabs_neg by lra. lra.
  - apply NumFacts.Qle_bool_false in E. rewrite Qabs_pos by lra. lra.
Qed.

Lemma Qabs_zero_iff x : Qabs x == 0 <-> x == 0.
Proof.
  split; intros E.
  - destruct (Qlt_le_dec x 0) as [Hx|Hx].
    + rewrite Qabs_neg in E by lra. lra.
    + rewrite Qabs_pos in E by lra. lra.
  - rewrite E. reflexivity.
Qed.

(** C9, amended: for positive [a] and [b], [relDiff(a, b)] lies in
    [0, 1] (in binary64 the quotient can round up to exactly 1); it is
    zero exactly when [a] equals [b], so [relDiff(a, a)] is zero; and
    [relDiff(b, a)] is the same number. *)
Theorem relDiff_positive (a b : Q) :
  0 < a -> 0 < b ->
  exists r,
    relDiff (JNum (Fin a)) (JNum (Fin b)) = Fin r /\
    0 <= r /\ r <= 1 /\
    (r == 0 <-> a == b) /\
    Num.eqb (relDiff (JNum (Fin a)) (JNum (Fin a))) (Fin 0) = true /\
    Num.eqb (relDiff (JNum (Fin b)) (JNum (Fin a))) (Fin r) = true.
Proof.
  intros Ha Hb.
  pose proof (larger_pos a b Ha Hb) as Hm.
  pose proof (Qabs_diff_lt_larger a b Ha Hb) as Hlt.
  exists (Qabs (a - b) / larger a b).
  split; [by apply relDiff_Fin|].
  split; [apply Qle_shift_div_l; [done|]; rewrite Qmult_0_l; apply Qabs_nonneg|].
  split; [apply Qle_shift_div_r; [done|]; lra|].
  split; [|split].
  - split; intros E.
    + assert (Qabs (a - b) == 0) as E0.
      { rewrite <- (Qmult_div_r (Qabs (a - b)) (larger a b)) by lra.
        rewrite E. ring. }
      apply (proj1 (Qabs_zero_iff _)) in E0. lra.
    + assert (Qabs (a - b) == 0) as -> by (apply Qabs_zero_iff; lra).
      unfold Qdiv. lra.
  - rewrite (relDiff_Fin a a Ha Ha). cbn [Num.eqb]. apply Qeq_bool_iff.
    assert (Qabs (a - a) == 0) as -> by (apply Qabs_zero_iff; lra).
    unfold Qdiv. lra.
  - rewrite (relDiff_Fin b a Hb Ha). cbn [Num.eqb]. apply Qeq_bool_iff.
    rewrite (Qabs_Qminus b a), (larger_comm b a). reflexivity.
Qed.

End RelDiff.

(** ** The candidate filter *)

Section Filter.
Context `{Host}.

Lemma filter_sublist {A} (f : A -> bool) (l : list A) :
  List.filter f l `sublist_of` l.
Proof.
  induction l as [|x l IH]; cbn [List.filter]; [constructor|].
  destruct (f x); by constructor.
Qed.

Lemma elem_of_filter {A} (f : A -> bool) (l : list A) x :
  x ∈ List.filter f l <-> x ∈ l /\ f x = true.
Proof. rewrite !list_elem_of_In. apply filter_In. Qed.

Lemma truthy_present v :
  number_or_absent v -> truthy v = true -> present_nonzero v.
Proof.
  destruct v as [| | |[| | |q]| |]; cbn; try done.
  intros _ E. apply negb_true_iff, NumFacts.Qeq_bool_false in E. exact E.
Qed.

Lemma present_truthy v :
  present_nonzero v -> ToNumber v <> NaN -> truthy v = true.
Proof.
  destruct v as [| | |[| | |q]| |]; cbn; try done.
  intros E _. by apply negb_true_iff, NumFacts.Qeq_bool_false.
Qed.

(** A comparison that holds has no NaN on its left, and a relative
    difference or a year gap that is not NaN has no NaN operand. *)
Lemma relDiff_not_NaN a b : relDiff a b <> NaN -> ToNumber a <> NaN.
Proof. unfold relDiff. by destruct (ToNumber a). Qed.

Lemma yearGap_not_NaN r t :
  yearGap r t <> NaN -> ToNumber (imprvyearbuilt r) <> NaN.
Proof. unfold yearGap. by destruct (ToNumber (imprvyearbuilt r)). Qed.

(** C3: the filter keeps a subsequence of the candidates in their
    order, and keeps a candidate (whose attributes are numbers or
    missing) exactly when its area, market value, land value and year
    built are present and not zero, its relative differences to the
    target in area, market value and land value are at most [areaPct],
    [marketPct] and [landPct], and its year built is at most [yearDiff]
    years from the target's. *)
Theorem filter_keeps_exactly cutoffs t candidates :
  filterCandidates cutoffs t candidates `sublist_of` candidates /\
  forall r, r ∈ candidates -> typed_row r ->
    (r ∈ filterCandidates cutoffs t candidates <->
     present_nonzero (imprvmainarea r) /\
     present_nonzero (prevvalmarket r) /\
     present_nonzero (prevvalland r) /\
     present_nonzero (imprvyearbuilt r) /\
     (relDiff (imprvmainarea r) (imprvmainarea t)
        <=? ToNumber (prop cutoffs "areaPct"))%num = true /\
     (relDiff (prevvalmarket r) (prevvalmarket t)
        <=? ToNumber (prop cutoffs "marketPct"))%num = true /\
     (relDiff (prevvalland r) (prevvalland t)
        <=? ToNumber (prop cutoffs "landPct"))%num = true /\
     (Num.abs (ToNumber (imprvyearbuilt r) - ToNumber (imprvyearbuilt t))
        <=? ToNumber (prop cutoffs "yearDiff"))%num = true).
Proof.
  split; [apply filter_sublist|].
  intros r Hr (Ta & Tm & Tl & Ty).
  unfold filterCandidates. rewrite elem_of_filter.
  unfold passesCutoffs. fold (yearGap r t).
  rewrite !andb_true_iff. split.
  - intros (_ & (((((((Ha & Hm) & Hl) & Hy) & Ca) & Cm) & Cl) & Cy)).
    auto 10 using truthy_present.
  - intros (Ha & Hm & Hl & Hy & Ca & Cm & Cl & Cy).
    split; [done|].
    repeat split; try done; apply present_truthy; try done.
    + eapply relDiff_not_NaN, NumFacts.leb_not_NaN_l, Ca.
    + eapply relDiff_not_NaN, NumFacts.leb_not_NaN_l, Cm.
    + eapply relDiff_not_NaN, NumFacts.leb_not_NaN_l, Cl.
    + eapply yearGap_not_NaN, NumFacts.leb_not_NaN_l, Cy.
Qed.

End Filter.

(** ** What is in the ranked list *)

Section Comps.
Context `{Host}.

(** Every ranked candidate is the score of a row that passed the
    filter, computed with the request's availability factor. *)
Lemma comps_elem algo lim t candidates c :
  c ∈ comps (compare algo lim t candidates) ->
  exists r,
    r ∈ candidates /\
    passesCutoffs (cutoffs algo) t r = true /\
    c = scoreCandidate (weights algo) (priceBias algo)
          (availabilityFactor (priceBias algo) candidates) t r.
Proof.
  cbn [comps compare]. unfold scored. intros Hc.
  destruct (slice0_prefix
              (sort bySimilarity
                 (map (scoreCandidate (weights algo) (priceBias algo)
                         (availabilityFactor (priceBias algo) candidates) t)
                    (filterCandidates (cutoffs algo) t candidates))) lim)
    as [k Hk].
  assert (c ∈ sort bySimilarity
                 (map (scoreCandidate (weights algo) (priceBias algo)
                         (availabilityFactor (priceBias algo) candidates) t)
                    (filterCandidates (cutoffs algo) t candidates))) as Hin.
  { rewrite Hk. apply elem_of_app. by left. }
  rewrite (sort_perm similarity) in Hin.
  apply list_elem_of_fmap in Hin as (r & -> & Hr).
  apply elem_of_filter in Hr as [Hr Hp]. by exists r.
Qed.

(** C4: the base similarity of every ranked candidate is the weighted
    sum of its three relative differences to the target and of its
    year gap divided by 100. *)
Theorem baseSimilarity_formula algo lim t candidates c :
  c ∈ comps (compare algo lim t candidates) ->
  baseSimilarity c =
    (ToNumber (prop (weights algo) "area")
       * relDiff (imprvmainarea (record c)) (imprvmainarea t) +
     ToNumber (prop (weights algo) "market")
       * relDiff (prevvalmarket (record c)) (prevvalmarket t) +
     ToNumber (prop (weights algo) "land")
       * relDiff (prevvalland (record c)) (prevvalland t) +
     ToNumber (prop (weights algo) "year")
       * (Num.abs (ToNumber (imprvyearbuilt (record c))
                   - ToNumber (imprvyearbuilt t)) / Fin 100))%num.
Proof.
  intros Hc. apply comps_elem in Hc as (r & _ & _ & ->). reflexivity.
Qed.

End Comps.

(** ** Scores of well-formed requests are finite *)

Section Finite.
Context `{Host}.

Lemma relDiff_passing_finite a t c :
  positive_number t -> finite_number c ->
  (relDiff a t <=? ToNumber c)%num = true ->
  (exists x, ToNumber a = Fin x) /\ exists d, relDiff a t = Fin d.
Proof.
  intros (tq & Ht & Hpos) (cq & Hc). unfold relDiff. rewrite Ht, Hc.
  destruct (ToNumber a) as [| | |x]; cbn; try discriminate.
  - destruct (Qlt_bool tq 0) eqn:E; [|discriminate].
    apply NumFacts.Qlt_bool_iff in E. lra.
  - intros _. split; [by eexists|].
    destruct (Qle_bool x tq) eqn:E; cbn.
    + destruct (Qeq_bool tq 0) eqn:E0; [|by eexists].
      apply Qeq_bool_iff in E0. lra.
    + apply NumFacts.Qle_bool_false in E.
      destruct (Qeq_bool x 0) eqn:E0; [|by eexists].
      apply Qeq_bool_iff in E0. lra.
Qed.

Lemma yearGap_passing_finite r t c :
  finite_number (imprvyearbuilt t) -> finite_number c ->
  (yearGap r t <=? ToNumber c)%num = true ->
  exists d, yearGap r t = Fin d.
Proof.
  intros (tq & Ht) (cq & Hc). unfold yearGap. rewrite Ht, Hc.
  destruct (ToNumber (imprvyearbuilt r)) as [| | |x]; cbn;
    try discriminate.
  intros _. by eexists.
Qed.

Lemma availabilityFactor_finite pb candidates :
  ToNumber (prop pb "fullBiasAt") <> NaN -> candidates <> [] ->
  exists f, availabilityFactor pb candidates = Fin f.
Proof.
  intros Hf Hne. unfold availabilityFactor.
  destruct (truthy (prop pb "enabled")); [|by eexists].
  destruct (ToNumber (prop pb "fullBiasAt")) as [| | |y];
    [done|by eexists|by eexists|].
  unfold Num.of_nat, Num.div.
  destruct (Qeq_bool y 0).
  - destruct (inject_Z (Z.of_nat (length candidates)) ?= 0) eqn:E;
      [|exfalso|by eexists].
    + exfalso. apply Qeq_alt in E. destruct candidates; [done|].
      unfold Qeq in E. cbn in E. lia.
    + apply Qlt_alt in E. unfold Qlt in E. cbn in E. lia.
  - unfold Num.min. cbn [Num.isNaN orb Num.leb].
    destruct (Qle_bool 1 _); by eexists.
Qed.

(** For a well-formed configuration and target, every candidate that
    passes the filter gets a finite similarity. *)
Lemma scores_finite algo t candidates :
  well_formed algo t ->
  Forall (fun c => similarity c <> NaN)
    (map (scoreCandidate (weights algo) (priceBias algo)
            (availabilityFactor (priceBias algo) candidates) t)
       (filterCandidates (cutoffs algo) t candidates)).
Proof.
  intros ((Wa & Wm & Wl & Wy) & (Ca & Cm & Cl & Cy) & (Pw & Pf)
          & (Ta & Tm & Tl & Ty)).
  apply Forall_forall. intros c Hc.
  apply list_elem_of_fmap in Hc as (r & -> & Hr).
  apply elem_of_filter in Hr as [Hr Hp].
  assert (candidates <> []) as Hne by (intros ->; by apply elem_of_nil in Hr).
  destruct (availabilityFactor_finite _ _ Pf Hne) as (f & Hf).
  unfold passesCutoffs in Hp. rewrite !andb_true_iff in Hp.
  destruct Hp as [[[[_ Ha] Hm] Hl] Hy].
  destruct (relDiff_passing_finite _ _ _ Ta Ca Ha) as (_ & da & Hda).
  destruct (relDiff_passing_finite _ _ _ Tm Cm Hm) as ((rm & Hrm) & dm & Hdm).
  destruct (relDiff_passing_finite _ _ _ Tl Cl Hl) as (_ & dl & Hdl).
  destruct (yearGap_passing_finite _ _ _ Ty Cy Hy) as (dy & Hdy).
  destruct Wa as (wa & Hwa), Wm as (wm & Hwm), Wl as (wl & Hwl),
    Wy as (wy & Hwy), Pw as (pw & Hpw), Tm as (tm & Htm & Htm0).
  cbn [similarity scoreCandidate].
  unfold baseSimilarityOf, priceBiasValueOf.
  rewrite Hf, Hda, Hdm, Hdl, Hdy, Hwa, Hwm, Hwl, Hwy, Hpw, Hrm, Htm.
  assert (Qeq_bool tm 0 = false) as E0
    by (apply NumFacts.Qeq_bool_false; lra).
  destruct (truthy (prop (priceBias algo) "enabled")); cbn; [|done].
  rewrite E0. unfold Num.max. cbn.
  by destruct (Qle_bool 0 _).
Qed.

End Finite.

(** ** Ranking *)

Section Rank.
Context `{Host}.

Lemma LIMIT_requests o n :
  requests o n ->
  exists q, LIMIT o = JNum (Fin q) /\ q == inject_Z (Z.of_nat n).
Proof.
  intros [[Hu ->]|Hp].
  - exists 10. split; [|reflexivity].
    apply LIMIT_falsy. by rewrite Hu.
  - rewrite (LIMIT_positive_integer _ _ Hp).
    destruct Hp as [_ (q & -> & Hq)]. by exists q.
Qed.

(** C5: the ranked list is in non-decreasing order of similarity, keeps
    candidates of equal score in their original order, has
    [min(limit, filteredCount)] entries, and the limit is 10 when the
    caller gives none. *)
Theorem ranked_output algo o t candidates n :
  let passed :=
    map (scoreCandidate (weights algo) (priceBias algo)
           (availabilityFactor (priceBias algo) candidates) t)
      (filterCandidates (cutoffs algo) t candidates) in
  let ranked := comps (compare algo (LIMIT o) t candidates) in
  requests o n ->
  Forall (fun c => similarity c <> NaN) passed ->
  nondecreasing ranked /\
  (forall v, withScore v ranked `prefix_of` withScore v passed) /\
  length ranked =
    Nat.min n (length (filterCandidates (cutoffs algo) t candidates)) /\
  (limit o = JUndefined -> n = 10%nat).
Proof.
  intros passed ranked Hreq Hnan.
  destruct (LIMIT_requests o n Hreq) as (q & Hlim & Hq).
  assert (ranked = firstn n (sort bySimilarity passed)) as Hranked.
  { unfold ranked. cbn [comps compare]. unfold scored.
    rewrite Hlim. by apply slice0_integer. }
  assert (exists k, sort bySimilarity passed = ranked ++ k) as [k Hsplit].
  { exists (skipn n (sort bySimilarity passed)).
    rewrite Hranked. symmetry. apply firstn_skipn. }
  split; [|split; [|split]].
  - pose proof (sort_sorted similarity passed Hnan) as Hs.
    change (StronglySorted
              (fun a b => Num.leb (similarity a) (similarity b) = true)
              (sort bySimilarity passed)) in Hs.
    rewrite Hsplit in Hs. by apply StronglySorted_app_1_l in Hs.
  - intros v. unfold withScore.
    pose proof (sort_stable similarity v passed) as Hst.
    change (List.filter (fun c => Num.eqb (similarity c) v)
              (sort bySimilarity passed) =
            List.filter (fun c => Num.eqb (similarity c) v) passed) in Hst.
    rewrite <- Hst, Hsplit, List.filter_app. by eexists.
  - rewrite Hranked, length_firstn, (sort_length similarity).
    unfold passed. by rewrite length_map.
  - intros Hu. destruct Hreq as [[_ ->]|[_ (q' & Hq' & _)]]; [done|].
    congruence.
Qed.

End Rank.

(** ** The price bias *)

Section PriceBias.
Context `{Host}.

Lemma availabilityFactor_quarter_hundred pb candidates :
  truthy (prop pb "enabled") = true ->
  Num.eqb (ToNumber (prop pb "fullBiasAt")) (Fin 50) = true ->
  length candidates = 25%nat ->
  Num.eqb (availabilityFactor pb candidates) (Fin 0.5) = true.
Proof.
  intros He Hf Hn. unfold availabilityFactor. rewrite He, Hn.
  destruct (ToNumber (prop pb "fullBiasAt")) as [| | |q]; try discriminate.
  cbn [Num.eqb] in Hf. apply Qeq_bool_iff in Hf.
  unfold Num.of_nat, Num.div.
  destruct (Qeq_bool q 0) eqn:E0;
    [apply Qeq_bool_iff in E0; rewrite E0 in Hf; discriminate|].
  assert (inject_Z (Z.of_nat 25) / q == 1 # 2) as Hhalf.
  { rewrite Hf. reflexivity. }
  unfold Num.min. cbn [Num.isNaN orb Num.leb].
  destruct (Qle_bool 1 (inject_Z (Z.of_nat 25) / q)) eqn:E1.
  - apply Qle_bool_iff in E1. rewrite Hhalf in E1. lra.
  - cbn [Num.eqb]. apply Qeq_bool_iff. rewrite Hhalf. reflexivity.
Qed.

(** C2, amended: when [priceBias.enabled] is truthy the availability
    factor is [min(1, n / fullBiasAt)] for the [n] candidates fetched,
    before any filtering - 0.5 for 25 candidates and [fullBiasAt] 50 -
    and when it is not the factor is 0; this factor scales the bias
    term of every ranked candidate. *)
Theorem availabilityFactor_raw_count algo lim t candidates :
  let pb := priceBias algo in
  let factor := availabilityFactor pb candidates in
  (truthy (prop pb "enabled") = true ->
     factor = Num.min (Fin 1)
                (Num.of_nat (length candidates)
                 / ToNumber (prop pb "fullBiasAt"))%num) /\
  (truthy (prop pb "enabled") = true ->
     Num.eqb (ToNumber (prop pb "fullBiasAt")) (Fin 50) = true ->
     length candidates = 25%nat ->
     Num.eqb factor (Fin 0.5) = true) /\
  (truthy (prop pb "enabled") = false -> factor = Fin 0) /\
  (forall c, c ∈ comps (compare algo lim t candidates) ->
     similarity c =
       (baseSimilarity c
        + factor * ToNumber (prop pb "weight") * priceBiasValue c)%num).
Proof.
  intros pb factor. repeat split.
  - intros He. unfold factor, availabilityFactor. by rewrite He.
  - apply availabilityFactor_quarter_hundred.
  - intros He. unfold factor, availabilityFactor. by rewrite He.
  - intros c Hc. apply comps_elem in Hc as (r & _ & _ & ->). reflexivity.
Qed.

(** C6, amended: when [priceBias.enabled] is truthy the price-bias
    contribution of a ranked candidate is [max(0, ratio - 1)] for the
    ratio of its market value to the target's - zero at or below a
    positive target price, positive above it - and when it is not the
    contribution is 0; with a weight and an availability factor that
    are not negative, the similarity is never below the base
    similarity. *)
Theorem priceBias_contribution algo lim t candidates c :
  c ∈ comps (compare algo lim t candidates) ->
  let pb := priceBias algo in
  let ratio :=
    (ToNumber (prevvalmarket (record c)) / ToNumber (prevvalmarket t))%num in
  (truthy (prop pb "enabled") = true ->
     priceBiasValue c = Num.max (Fin 0) (ratio - Fin 1)%num) /\
  (truthy (prop pb "enabled") = false -> priceBiasValue c = Fin 0) /\
  (forall tm rm,
     truthy (prop pb "enabled") = true ->
     ToNumber (prevvalmarket t) = Fin tm -> 0 < tm ->
     ToNumber (prevvalmarket (record c)) = Fin rm ->
     (rm <= tm -> Num.eqb (priceBiasValue c) (Fin 0) = true) /\
     (tm < rm -> Num.ltb (Fin 0) (priceBiasValue c) = true)) /\
  (Num.leb (Fin 0) (ToNumber (prop pb "weight")) = true ->
   Num.leb (Fin 0) (availabilityFactor pb candidates) = true ->
   Num.ltb (similarity c) (baseSimilarity c) = false /\
   (similarity c <> NaN ->
    Num.leb (baseSimilarity c) (similarity c) = true)).
Proof.
  intros Hc pb ratio.
  apply comps_elem in Hc as (r & _ & _ & ->).
  cbn [priceBiasValue similarity baseSimilarity record scoreCandidate] in *.
  fold pb. unfold priceBiasValueOf.
  split; [by intros ->|]. split; [by intros ->|]. split.
  - intros tm rm -> Ht Htm Hr. subst ratio. rewrite Ht, Hr.
    assert (~ tm == 0) as Hne by lra.
    cbn [Num.div]. rewrite (proj2 (NumFacts.Qeq_bool_false _ _) Hne).
    cbn [Num.sub Num.neg Num.add]. unfold Num.max.
    cbn [Num.isNaN orb Num.leb].
    assert (rm / tm - 1 == (rm - tm) / tm) as Hq by (field; exact Hne).
    change (rm / tm + - (1)) with (rm / tm - 1).
    destruct (Qle_bool 0 (rm / tm - 1)) eqn:E.
    + apply Qle_bool_iff in E. rewrite Hq in E.
      split; intros Hcmp; cbn [Num.eqb Num.ltb].
      * apply Qeq_bool_iff. rewrite Hq.
        assert ((rm - tm) / tm <= 0) as Hle.
        { apply Qle_shift_div_r; [done|]. lra. }
        lra.
      * apply NumFacts.Qlt_bool_iff. rewrite Hq.
        apply Qlt_shift_div_l; [done|]. lra.
    + apply NumFacts.Qle_bool_false in E. rewrite Hq in E.
      split; intros Hcmp; [reflexivity|].
      exfalso.
      assert (0 < (rm - tm) / tm) as Hpos.
      { apply Qlt_shift_div_l; [done|]. lra. }
      lra.
  - intros Hw Hf.
    assert (not_negative
              (availabilityFactor pb candidates
               * ToNumber (prop pb "weight")
               * (if truthy (prop pb "enabled")
                  then Num.max (Fin 0)
                         (ToNumber (prevvalmarket r)
                          / ToNumber (prevvalmarket t) - Fin 1)
                  else Fin 0))%num) as Hadj.
    { apply NumFacts.mul_not_negative.
      - apply NumFacts.mul_not_negative;
          by apply NumFacts.leb_0_not_negative.
      - destruct (truthy (prop pb "enabled"));
          [apply NumFacts.max_0_not_negative|reflexivity]. }
    split.
    + by apply NumFacts.add_not_negative_not_ltb.
    + by apply NumFacts.add_not_negative_leb.
Qed.

End PriceBias.

(** ** Configuration resolution *)

Section Resolve.
Context `{Host}.

Lemma mergeGroup_resolved base (o : obj) k :
  group_resolved base (mergeGroup base (prop o k)) (o !! k).
Proof.
  unfold prop, mergeGroup, spread.
  destruct (o !! k) as [[| |b|n|s|go]|]; cbn; try done.
  - destruct b; [|done]. by rewrite (left_id_L ∅ (∪)).
  - destruct (Num.truthy n); [|done]. by rewrite (left_id_L ∅ (∪)).
  - intros i.
  rewrite lookup_union.
  by destruct (go !! i), (base !! i).
Qed.

(** C7: resolving an override object replaces, in each of the three
    groups that the override has, exactly the keys of that override
    group and keeps the base value of every other key; a group that the
    override lacks is the base group. *)
Theorem resolve_override_object base (o : obj) st :
  exists algo,
    resolveAlgo base (JObj o) st = (Returned algo, st) /\
    group_resolved (weights base) (weights algo) (o !! "weights") /\
    group_resolved (cutoffs base) (cutoffs algo) (o !! "cutoffs") /\
    group_resolved (priceBias base) (priceBias algo) (o !! "priceBias").
Proof.
  eexists. split; [reflexivity|].
  cbn [weights cutoffs priceBias].
  repeat split; apply mergeGroup_resolved.
Qed.

(** The same holds for an override given as a text that parses to an
    object. *)
Lemma resolve_override_text base s (o : obj) st :
  s <> "" -> JSON_parse s = Some (JObj o) ->
  exists algo,
    resolveAlgo base (JStr s) st = (Returned algo, st) /\
    group_resolved (weights base) (weights algo) (o !! "weights") /\
    group_resolved (cutoffs base) (cutoffs algo) (o !! "cutoffs") /\
    group_resolved (priceBias base) (priceBias algo) (o !! "priceBias").
Proof.
  intros Hs Hp. unfold resolveAlgo, overrideAlgo. cbn [truthy parseAlgo].
  apply String.eqb_neq in Hs. rewrite Hs, Hp. cbn.
  eexists. split; [reflexivity|].
  cbn [weights cutoffs priceBias].
  repeat split; apply mergeGroup_resolved.
Qed.

Lemma resolveAlgo_malformed base s st :
  JSON_parse s = None ->
  resolveAlgo base (JStr s) st =
    (Returned base,
     {| defaultAlgo := defaultAlgo st;
        console := console st ++
          (if String.eqb s "" then [] else [invalidAlgoWarning]) |}).
Proof.
  intros Hp. unfold resolveAlgo, overrideAlgo. cbn [truthy parseAlgo].
  destruct (String.eqb s "") eqn:Es; cbn [negb].
  - destruct st. cbn. by rewrite app_nil_r.
  - by rewrite Hp.
Qed.

(** On every host the empty text is skipped: nothing is parsed and the
    console is left as it is. *)
Lemma resolveAlgo_empty_text base st :
  resolveAlgo base (JStr "") st = (Returned base, st).
Proof. reflexivity. Qed.

(** C8, amended: for an override text that does not parse, resolution
    returns the base configuration as it is and throws nothing, and the
    request ends as it would without an override; a warning is logged
    when the text is not empty, and none for the empty text, which is
    taken as no override. *)
Theorem malformed_override_text o s st :
  customAlgo o = JStr s ->
  JSON_parse s = None ->
  (forall base st1,
     resolveAlgo base (customAlgo o) st1 =
       (Returned base,
        {| defaultAlgo := defaultAlgo st1;
           console := console st1 ++
             (if String.eqb s "" then [] else [invalidAlgoWarning]) |})) /\
  (getSimilarProperties (Some o) st).1 =
    (getSimilarProperties (Some (withoutCustomAlgo o)) st).1.
Proof.
  intros Hc Hp. rewrite Hc.
  split; [intros; by apply resolveAlgo_malformed|].
  destruct (loadDefaultAlgo_Returned st) as (st1 & base & Hload & Hbase).
  unfold getSimilarProperties, mbind, M_bind, readDefaultAlgo.
  rewrite Hload. cbn [opt_propid customAlgo withoutCustomAlgo].
  destruct (truthy (opt_propid o)); [|reflexivity]. cbn [negb].
  rewrite Hbase, Hc, (resolveAlgo_malformed base s st1 Hp).
  cbn [resolveAlgo truthy mret M_ret].
  unfold await, throw, mret, M_ret.
  destruct (fetch_target (opt_propid o)) as [[|t rest]|]; try reflexivity.
  by destruct (fetch_candidates (legalabssubcode t) (opt_propid o)).
Qed.

End Resolve.

(** ** The limit *)

Section Limit.
Context `{Host}.

Lemma ranked_length_integer algo lim t candidates (n : nat) q :
  lim = JNum (Fin q) -> q == inject_Z (Z.of_nat n) ->
  length (comps (compare algo lim t candidates)) =
    Nat.min n (length (filterCandidates (cutoffs algo) t candidates)).
Proof.
  intros -> Hq. cbn [comps compare]. unfold scored.
  rewrite (slice0_integer _ _ _ Hq), length_firstn.
  by rewrite (sort_length similarity), length_map.
Qed.

(** On every host a limit of 0.5 cuts the ranked list to nothing. *)
Lemma fractional_limit_slices_to_nothing algo t candidates :
  comps (compare algo (JNum (Fin 0.5)) t candidates) = [].
Proof.
  cbn [comps compare]. unfold scored, slice0, sliceEnd.
  cbn [ToNumber]. change (Num.trunc 0.5) with 0%Z. cbn [Z.ltb Z.compare].
  by rewrite Z.min_l by lia.
Qed.

(** C10, amended: a limit of 0, or any other falsy limit, gives the
    very run of a request without limit, with up to 10 results; so a
    falsy limit never asks for zero results. (A truthy limit that
    truncates to zero, such as 0.5, does.) *)
Theorem falsy_limit_is_default o :
  truthy (limit o) = false ->
  (forall st,
     getSimilarProperties (Some o) st =
       getSimilarProperties (Some (withoutLimit o)) st) /\
  (forall algo t candidates,
     length (comps (compare algo (LIMIT o) t candidates)) =
       Nat.min 10 (length (filterCandidates (cutoffs algo) t candidates)) /\
     (filterCandidates (cutoffs algo) t candidates <> [] ->
      comps (compare algo (LIMIT o) t candidates) <> [])).
Proof.
  intros Hf. pose proof (LIMIT_falsy o Hf) as Hlim. split.
  - intros st. unfold getSimilarProperties.
    cbn [opt_propid customAlgo withoutLimit]. rewrite Hlim.
    reflexivity.
  - intros algo t candidates.
    assert (length (comps (compare algo (LIMIT o) t candidates)) =
            Nat.min 10 (length (filterCandidates (cutoffs algo) t candidates)))
      as Hlen.
    { apply (ranked_length_integer _ _ _ _ 10 10); [done|reflexivity]. }
    split; [done|].
    intros Hne Hnil. rewrite Hnil in Hlen. cbn [length] in Hlen.
    destruct (filterCandidates (cutoffs algo) t candidates); [done|].
    cbn [length] in Hlen. lia.
Qed.

End Limit.

(** ** The counts of the result *)

Section Counts.
Context `{Host}.

(** What a returned result reports: the number of rows fetched, and the
    length of the ranked list. *)
Lemma result_counts options st res st' :
  getSimilarProperties options st = (Returned res, st') ->
  exists o t candidates,
    options = Some o /\
    fetch_candidates (legalabssubcode t) (opt_propid o) = Some candidates /\
    totalCandidates res = length candidates /\
    filteredCandidates res = length (comps res).
Proof.
  intros Hrun.
  apply getSimilarProperties_Returned in Hrun
    as (o & base & algo & st1 & t & rest & candidates
        & -> & _ & _ & _ & _ & _ & Hc & ->).
  by exists o, t, candidates.
Qed.

End Counts.

(** ** The engine on sample requests *)

(** C1: on a request with limit 1 whose two candidates both pass the
    filter, the result reports 2 candidates fetched and 1 candidate after
    filtering: [filteredCandidates] is the length of the ranked list,
    already cut to the limit, and not the number of candidates that
    passed the filter. *)
Theorem filteredCandidates_is_capped :
  exists res st',
    getSimilarProperties (H := twoCandidateHost)
      (Some (sampleOptions (JNum (Fin 1)) JUndefined)) freshRuntime
      = (Returned res, st') /\
    totalCandidates res = 2%nat /\
    length (filterCandidates (H := twoCandidateHost)
              (cutoffs fallbackAlgo) sampleTarget twoCandidates) = 2%nat /\
    filteredCandidates res = 1%nat /\
    length (comps res) = 1%nat.
Proof.
  eexists _, _. split; [vm_compute; reflexivity|].
  repeat split; vm_compute; reflexivity.
Qed.

(** C2 fails as stated: with the price bias switched off, 25 fetched
    candidates and [fullBiasAt] 50, the availability factor is 0 and not
    [min(1, 25 / 50)], which is 0.5. *)
Lemma availabilityFactor_disabled :
  let candidates := replicate 25 (sampleCandidate "A") in
  let formula :=
    Num.min (Fin 1)
      (Num.of_nat (length candidates)
       / ToNumber (H := twoCandidateHost) (prop biasDisabled "fullBiasAt"))%num in
  length candidates = 25%nat /\
  ToNumber (H := twoCandidateHost) (prop biasDisabled "fullBiasAt") = Fin 50 /\
  Num.eqb formula (Fin 0.5) = true /\
  availabilityFactor (H := twoCandidateHost) biasDisabled candidates = Fin 0 /\
  availabilityFactor (H := twoCandidateHost) biasDisabled candidates <> formula.
Proof.
  repeat split; try (vm_compute; reflexivity).
  vm_compute. discriminate.
Qed.

Lemma availabilityFactor_raw_count_witness :
  let candidates := replicate 25 (sampleCandidate "A") in
  Num.eqb (availabilityFactor (H := twoCandidateHost)
             (priceBias fallbackAlgo) candidates) (Fin 0.5) = true /\
  length (filterCandidates (H := twoCandidateHost)
            (cutoffs fallbackAlgo) distantTarget candidates) = 0%nat.
Proof.
  intros candidates. split; [|vm_compute; reflexivity].
  destruct (availabilityFactor_raw_count (H := twoCandidateHost)
              fallbackAlgo JUndefined distantTarget candidates)
    as (_ & Hhalf & _ & _).
  apply Hhalf; vm_compute; reflexivity.
Defined.

Lemma filter_keeps_exactly_witness :
  sampleCandidate "A" ∈ twoCandidates /\
  typed_row (sampleCandidate "A") /\
  filterCandidates (H := twoCandidateHost)
    (cutoffs fallbackAlgo) sampleTarget twoCandidates
    `sublist_of` twoCandidates /\
  sampleCandidate "A" ∈ filterCandidates (H := twoCandidateHost)
                          (cutoffs fallbackAlgo) sampleTarget twoCandidates.
Proof.
  assert (sampleCandidate "A" ∈ twoCandidates) as Hin by (by left).
  assert (typed_row (sampleCandidate "A")) as Ht by (by repeat split).
  destruct (filter_keeps_exactly (H := twoCandidateHost)
              (cutoffs fallbackAlgo) sampleTarget twoCandidates)
    as [Hsub Hiff].
  split; [exact Hin|]. split; [exact Ht|]. split; [exact Hsub|].
  apply (Hiff _ Hin Ht).
  repeat split; first [discriminate | vm_compute; reflexivity].
Defined.

Lemma baseSimilarity_formula_witness :
  exists c,
    c ∈ comps (compare (H := twoCandidateHost) fallbackAlgo (JNum (Fin 10))
                 sampleTarget twoCandidates) /\
    record c = sampleCandidate "A" /\
    Num.eqb (baseSimilarity c) (Fin (6860815 # 324105000)) = true.
Proof.
  set (c := scoreCandidate (H := twoCandidateHost)
              (weights fallbackAlgo) (priceBias fallbackAlgo)
              (availabilityFactor (H := twoCandidateHost)
                 (priceBias fallbackAlgo) twoCandidates)
              sampleTarget (sampleCandidate "A")).
  assert (c ∈ comps (compare (H := twoCandidateHost) fallbackAlgo
                       (JNum (Fin 10)) sampleTarget twoCandidates)) as Hin.
  { apply list_elem_of_In. vm_compute. left. reflexivity. }
  exists c. split; [exact Hin|]. split; [reflexivity|].
  rewrite (baseSimilarity_formula (H := twoCandidateHost) _ _ _ _ _ Hin).
  vm_compute. reflexivity.
Defined.

Lemma ranked_output_witness :
  requests defaultRequest 10 /\
  nondecreasing
    (comps (compare (H := twoCandidateHost) fallbackAlgo
              (LIMIT defaultRequest) sampleTarget twoCandidates)) /\
  length (comps (compare (H := twoCandidateHost) fallbackAlgo
                   (LIMIT defaultRequest) sampleTarget twoCandidates))
    = 2%nat.
Proof.
  assert (requests defaultRequest 10) as Hreq by (left; split; reflexivity).
  assert (well_formed (H := twoCandidateHost) fallbackAlgo sampleTarget)
    as Hwf.
  { repeat split; first [by eexists | by eexists; split | done]. }
  pose proof (scores_finite (H := twoCandidateHost) fallbackAlgo
                sampleTarget twoCandidates Hwf) as Hnan.
  destruct (ranked_output (H := twoCandidateHost) fallbackAlgo defaultRequest
              sampleTarget twoCandidates 10 Hreq Hnan) as (Hs & _ & Hl & _).
  split; [exact Hreq|]. split; [exact Hs|].
  rewrite Hl. vm_compute. reflexivity.
Defined.

(** C6 fails as stated: with the price bias switched off, a candidate
    priced above the target has contribution 0, while
    [max(0, ratio - 1)] is positive for it. *)
Lemma priceBias_disabled_contribution :
  exists c,
    comps (compare (H := twoCandidateHost) unbiasedAlgo (JNum (Fin 10))
             sampleTarget [sampleCandidate "A"]) = [c] /\
    record c = sampleCandidate "A" /\
    priceBiasValue c = Fin 0 /\
    Num.ltb (Fin 0)
      (Num.max (Fin 0)
         (ToNumber (H := twoCandidateHost) (prevvalmarket (record c))
          / ToNumber (H := twoCandidateHost) (prevvalmarket sampleTarget)
          - Fin 1)%num) = true.
Proof.
  eexists. split; [vm_compute; reflexivity|].
  repeat split; vm_compute; reflexivity.
Qed.

Lemma priceBias_contribution_witness :
  exists c,
    c ∈ comps (compare (H := twoCandidateHost) fallbackAlgo (JNum (Fin 10))
                 sampleTarget twoCandidates) /\
    record c = sampleCandidate "A" /\
    Num.ltb (Fin 0) (priceBiasValue c) = true /\
    Num.leb (baseSimilarity c) (similarity c) = true.
Proof.
  set (c := scoreCandidate (H := twoCandidateHost)
              (weights fallbackAlgo) (priceBias fallbackAlgo)
              (availabilityFactor (H := twoCandidateHost)
                 (priceBias fallbackAlgo) twoCandidates)
              sampleTarget (sampleCandidate "A")).
  assert (c ∈ comps (compare (H := twoCandidateHost) fallbackAlgo
                       (JNum (Fin 10)) sampleTarget twoCandidates)) as Hin.
  { apply list_elem_of_In. vm_compute. left. reflexivity. }
  destruct (priceBias_contribution (H := twoCandidateHost) _ _ _ _ _ Hin)
    as (_ & _ & Hsign & Hmono).
  exists c. split; [exact Hin|]. split; [reflexivity|]. split.
  - apply (Hsign 300000 310000); reflexivity.
  - apply Hmono; [reflexivity|reflexivity|]. vm_compute. discriminate.
Defined.

Lemma resolve_override_object_witness :
  exists algo,
    resolveAlgo (H := twoCandidateHost) fallbackAlgo (JObj areaOverride)
      freshRuntime = (Returned algo, freshRuntime) /\
    weights algo !! "area" = Some (JNum (Fin 0.9)) /\
    weights algo !! "market" = weights fallbackAlgo !! "market" /\
    weights algo !! "land" = weights fallbackAlgo !! "land" /\
    weights algo !! "year" = weights fallbackAlgo !! "year" /\
    cutoffs algo = cutoffs fallbackAlgo /\
    priceBias algo = priceBias fallbackAlgo.
Proof.
  destruct (resolve_override_object (H := twoCandidateHost)
              fallbackAlgo areaOverride freshRuntime)
    as (algo & Hrun & Hw & Hc & Hp).
  exists algo. split; [exact Hrun|].
  repeat split; first [exact (Hw _) | exact Hc | exact Hp].
Defined.

(** C8 fails as stated: the empty text does not parse, and resolving it
    logs no warning. *)
Lemma empty_override_text_is_silent :
  JSON_parse (Host := twoCandidateHost) "" = None /\
  resolveAlgo (H := twoCandidateHost) fallbackAlgo (JStr "") freshRuntime
    = (Returned fallbackAlgo, freshRuntime) /\
  console freshRuntime = [].
Proof. repeat split. Qed.

Lemma malformed_override_text_witness :
  JSON_parse (Host := twoCandidateHost) "{bad json" = None /\
  resolveAlgo (H := twoCandidateHost) fallbackAlgo (JStr "{bad json")
    freshRuntime
    = (Returned fallbackAlgo,
       {| defaultAlgo := None; console := [invalidAlgoWarning] |}).
Proof.
  assert (JSON_parse (Host := twoCandidateHost) "{bad json" = None) as Hp
    by reflexivity.
  split; [exact Hp|].
  exact (proj1 (malformed_override_text (H := twoCandidateHost)
                  (sampleOptions JUndefined (JStr "{bad json"))
                  "{bad json" freshRuntime eq_refl Hp)
           fallbackAlgo freshRuntime).
Defined.

(** C9 fails as stated: in binary64 [relDiff(1, 2^54)] is exactly 1,
    since the difference [2^54 - 1] rounds to [2^54]. *)
Lemma relDiff_rounds_to_one :
  PrimFloat.ltb PrimFloat.zero PrimFloat.one = true /\
  PrimFloat.ltb PrimFloat.zero Binary64.two54 = true /\
  Binary64.relDiff PrimFloat.one Binary64.two54 = PrimFloat.one /\
  PrimFloat.ltb (Binary64.relDiff PrimFloat.one Binary64.two54)
    PrimFloat.one = false.
Proof. repeat split; vm_compute; reflexivity. Qed.

Lemma relDiff_positive_witness :
  exists r,
    relDiff (H := twoCandidateHost) (JNum (Fin 2050)) (JNum (Fin 2000)) = Fin r /\
    0 <= r /\ r <= 1.
Proof.
  destruct (relDiff_positive (H := twoCandidateHost) 2050 2000)
    as (r & Hr & H0 & H1 & _); [reflexivity|reflexivity|].
  exists r. repeat split; assumption.
Defined.

(** C10 fails as stated: the limit 0.5 is truthy and [slice] truncates
    it to 0, so the request returns no result although both candidates
    pass the filter. *)
Lemma fractional_limit_gives_nothing :
  exists res st',
    getSimilarProperties (H := twoCandidateHost)
      (Some (sampleOptions (JNum (Fin 0.5)) JUndefined)) freshRuntime
      = (Returned res, st') /\
    length (filterCandidates (H := twoCandidateHost)
              (cutoffs fallbackAlgo) sampleTarget twoCandidates) = 2%nat /\
    comps res = [].
Proof.
  eexists _, _. split; [vm_compute; reflexivity|].
  split; vm_compute; reflexivity.
Qed.

Lemma falsy_limit_is_default_witness :
  truthy (limit (sampleOptions (JNum (Fin 0)) JUndefined)) = false /\
  getSimilarProperties (H := twoCandidateHost)
    (Some (sampleOptions (JNum (Fin 0)) JUndefined)) freshRuntime
  = getSimilarProperties (H := twoCandidateHost)
      (Some defaultRequest) freshRuntime /\
  length (comps (compare (H := twoCandidateHost) fallbackAlgo
                   (LIMIT (sampleOptions (JNum (Fin 0)) JUndefined))
                   sampleTarget twoCandidates)) = 2%nat.
Proof.
  assert (truthy (limit (sampleOptions (JNum (Fin 0)) JUndefined)) = false)
    as Hf by reflexivity.
  destruct (falsy_limit_is_default (H := twoCandidateHost) _ Hf)
    as [Hrun Hlen].
  split; [exact Hf|]. split; [exact (Hrun freshRuntime)|].
  rewrite (proj1 (Hlen fallbackAlgo sampleTarget twoCandidates)).
  vm_compute. reflexivity.
Defined.

(** * Further properties *)

(** ** Requests as a whole *)

Section Requests.
Context `{Host}.

Lemma loadDefaultAlgo_run st :
  loadDefaultAlgo st =
    (Returned tt,
     match defaultAlgo st with
     | Some _ => st
     | None => {| defaultAlgo := Some (baseOf st);
                  console := console st ++ loadLog st |}
     end).
Proof.
  unfold loadDefaultAlgo, baseOf, loadLog.
  destruct (defaultAlgo st) eqn:E; [reflexivity|].
  destruct fetch_defaultAlgorithm; cbn; [|reflexivity].
  by rewrite app_nil_r.
Qed.

Lemma resolveAlgo_run base custom st :
  resolveAlgo base custom st =
    (Returned (resolved base custom),
     {| defaultAlgo := defaultAlgo st;
        console := console st ++
          (if truthy custom && (overrideAlgo base custom).2
           then [invalidAlgoWarning] else []) |}).
Proof.
  unfold resolveAlgo, resolved.
  destruct (truthy custom); cbn [andb].
  - destruct (overrideAlgo base custom) as [algo [|]]; cbn; [reflexivity|].
    destruct st. cbn. by rewrite app_nil_r.
  - destruct st. cbn. by rewrite app_nil_r.
Qed.

(** A request answers as [answer] says for its base configuration, and
    leaves that configuration cached and the console extended by the
    load's and the override's messages. *)
Lemma getSimilarProperties_run options st :
  getSimilarProperties options st =
    (answer (baseOf st) options,
     {| defaultAlgo := Some (baseOf st);
        console := console st ++ loadLog st ++ warnings (baseOf st) options |}).
Proof.
  unfold getSimilarProperties, mbind, M_bind, readDefaultAlgo.
  rewrite loadDefaultAlgo_run.
  assert (forall log,
            match defaultAlgo st with
            | Some _ => {| defaultAlgo := defaultAlgo st;
                           console := console st ++ log |}
            | None => {| defaultAlgo := Some (baseOf st);
                         console := (console st ++ loadLog st) ++ log |}
            end =
            {| defaultAlgo := Some (baseOf st);
               console := console st ++ loadLog st ++ log |}) as Hst.
  { intros log. unfold baseOf, loadLog.
    destruct (defaultAlgo st); [reflexivity|]. by rewrite <- app_assoc. }
  destruct options as [o|]; cbn [answer warnings].
  - destruct (truthy (opt_propid o)) eqn:Hid; cbn [negb andb].
    + assert (defaultAlgo
                match defaultAlgo st with
                | Some _ => st
                | None => {| defaultAlgo := Some (baseOf st);
                             console := console st ++ loadLog st |}
                end = Some (baseOf st)) as Hbase.
      { unfold baseOf. by destruct (defaultAlgo st) eqn:E. }
      rewrite Hbase, resolveAlgo_run. rewrite Hbase.
      set (log := if truthy (customAlgo o) &&
                     (overrideAlgo (baseOf st) (customAlgo o)).2
                  then [invalidAlgoWarning] else []).
      assert (console
                match defaultAlgo st with
                | Some _ => st
                | None => {| defaultAlgo := Some (baseOf st);
                             console := console st ++ loadLog st |}
                end ++ log = console st ++ loadLog st ++ log) as ->.
      { unfold loadLog. destruct (defaultAlgo st); cbn; [reflexivity|].
        by rewrite <- app_assoc. }
      unfold await, throw, mret, M_ret.
      destruct (fetch_target (opt_propid o)) as [[|t rest]|]; try reflexivity.
      by destruct (fetch_candidates (legalabssubcode t) (opt_propid o)).
    + unfold throw. f_equal. rewrite <- (Hst []).
      destruct (defaultAlgo st) eqn:E; rewrite !app_nil_r; [|reflexivity].
      destruct st; cbn in *. by rewrite E.
  - unfold throw. f_equal. rewrite <- (Hst []).
    destruct (defaultAlgo st) eqn:E; rewrite !app_nil_r; [|reflexivity].
    destruct st; cbn in *. by rewrite E.
Qed.

Lemma baseOf_cached st base :
  defaultAlgo st = Some base -> baseOf st = base /\ loadLog st = [].
Proof. unfold baseOf, loadLog. by intros ->. Qed.

End Requests.

Section RequestProperties.
Context `{Host}.

Lemma loadDefaultAlgoRaw_truthy file cache :
  truthy cache = true -> loadDefaultAlgoRaw file cache = (cache, []).
Proof. unfold loadDefaultAlgoRaw. by intros ->. Qed.

Lemma loadAll_truthy files cache :
  truthy cache = true -> loadAll files cache = (cache, []).
Proof.
  intros Ht. induction files as [|file files IH]; [reflexivity|].
  cbn [loadAll]. by rewrite (loadDefaultAlgoRaw_truthy _ _ Ht), IH.
Qed.

Lemma loadAll_app files1 files2 cache :
  loadAll (files1 ++ files2) cache =
    ((loadAll files2 (loadAll files1 cache).1).1,
     (loadAll files1 cache).2 ++ (loadAll files2 (loadAll files1 cache).1).2).
Proof.
  revert cache. induction files1 as [|file files1 IH]; intros cache.
  - cbn. by destruct (loadAll files2 cache).
  - cbn [app loadAll].
    destruct (loadDefaultAlgoRaw file cache) as [cache1 log1].
    rewrite IH. destruct (loadAll files1 cache1) as [cache2 log2]. cbn.
    by rewrite app_assoc.
Qed.

(** The typed loader is the untyped one on files that hold a
    configuration. *)
Lemma loadDefaultAlgo_raw st :
  loadDefaultAlgoRaw (algoValue <$> fetch_defaultAlgorithm) (cacheValue st)
  = (cacheValue (loadDefaultAlgo st).2,
     drop (length (console st)) (console (loadDefaultAlgo st).2)).
Proof.
  unfold loadDefaultAlgoRaw, loadDefaultAlgo, cacheValue.
  destruct (defaultAlgo st) eqn:E; cbn.
  - rewrite E. by rewrite drop_all.
  - destruct fetch_defaultAlgorithm; cbn.
    + by rewrite drop_all.
    + by rewrite drop_app_length.
Qed.

(** X1: calls of [loadDefaultAlgo] one after the other, on whatever the
    file answers each time. A truthy cached value is never replaced and
    nothing is logged for it, so that once a series of calls has left a
    truthy value, further calls change nothing. A series of calls logs at
    most one load error. The cache is still falsy after a call exactly
    when it was falsy before and the file answered with a falsy value,
    and the next call then reads the file again. *)
Theorem defaultAlgo_cached files cache :
  (truthy cache = true -> loadAll files cache = (cache, [])) /\
  (forall more,
     truthy (loadAll files cache).1 = true ->
     loadAll (files ++ more) cache = loadAll files cache) /\
  (length (loadAll files cache).2 <= 1)%nat /\
  (forall file,
     truthy (loadDefaultAlgoRaw file cache).1 = false <->
     truthy cache = false /\ exists v, file = Some v /\ truthy v = false) /\
  (forall v file,
     truthy cache = false -> truthy v = false ->
     loadAll [Some v; file] cache = loadDefaultAlgoRaw file v).
Proof.
  split; [apply loadAll_truthy|]. split; [|split; [|split]].
  - intros more Ht. rewrite loadAll_app, (loadAll_truthy more _ Ht).
    cbn. rewrite app_nil_r. by destruct (loadAll files cache).
  - revert cache. induction files as [|file files IH]; intros cache;
      [cbn; lia|].
    cbn [loadAll]. unfold loadDefaultAlgoRaw.
    destruct (truthy cache) eqn:Hc.
    + specialize (IH cache). destruct (loadAll files cache). cbn in *. lia.
    + destruct file as [v|].
      * specialize (IH v). destruct (loadAll files v). cbn in *. lia.
      * rewrite (loadAll_truthy files (algoValue fallbackAlgo) eq_refl).
        cbn. lia.
  - intros file. unfold loadDefaultAlgoRaw.
    destruct (truthy cache) eqn:Hc; cbn [fst].
    + rewrite Hc. split; [done|]. by intros [? _].
    + destruct file as [v|]; cbn [fst].
      * split; [intros Hv; split; [done|]; by exists v|].
        by intros (_ & v' & [= <-] & Hv).
      * split; [done|]. by intros (_ & v' & ? & _).
  - intros v file Hc Hv. cbn [loadAll]. unfold loadDefaultAlgoRaw at 1.
    rewrite Hc. destruct (loadDefaultAlgoRaw file v) as [c l]. cbn.
    by rewrite app_nil_r.
Qed.

(** X3: the first request of a runtime runs as if the runtime had started
    with the loaded file cached, or, when the file cannot be loaded, with
    the fallback cached and the load error on the console. *)
Theorem first_request_loads_default options st :
  defaultAlgo st = None ->
  getSimilarProperties options st =
    getSimilarProperties options
      match fetch_defaultAlgorithm with
      | Some file => {| defaultAlgo := Some file; console := console st |}
      | None => {| defaultAlgo := Some fallbackAlgo;
                   console := console st ++ [loadError] |}
      end.
Proof.
  intros Hnone. rewrite !getSimilarProperties_run.
  unfold baseOf, loadLog. rewrite Hnone.
  destruct fetch_defaultAlgorithm; cbn; [reflexivity|].
  by rewrite <- app_assoc.
Qed.

(** X4: the console only grows, by at most the load error followed by
    the override warning; the load error is logged exactly when nothing
    is cached and the file cannot be loaded, and the warning only for a
    request with a propid and a truthy override. *)
Theorem console_grows options st :
  exists loaded warned,
    console (getSimilarProperties options st).2
      = console st ++ loaded ++ warned /\
    (loaded = [] \/ loaded = [loadError]) /\
    (loaded = [loadError] <->
     defaultAlgo st = None /\ fetch_defaultAlgorithm = None) /\
    (warned = [] \/ warned = [invalidAlgoWarning]) /\
    (warned = [invalidAlgoWarning] ->
     exists o, options = Some o /\ truthy (opt_propid o) = true /\
               truthy (customAlgo o) = true).
Proof.
  exists (loadLog st), (warnings (baseOf st) options).
  rewrite getSimilarProperties_run. cbn [snd console].
  split; [reflexivity|]. split; [|split; [|split]].
  - unfold loadLog. destruct (defaultAlgo st), fetch_defaultAlgorithm; auto.
  - unfold loadLog.
    destruct (defaultAlgo st), fetch_defaultAlgorithm; split;
      try done; by intros [? ?].
  - unfold warnings. destruct options as [o|]; [|by left].
    destruct (_ && _ && _); auto.
  - unfold warnings. destruct options as [o|]; [|done].
    destruct (truthy (opt_propid o)) eqn:Hid,
      (truthy (customAlgo o)) eqn:Hcu; cbn; try done.
    intros _. by exists o.
Qed.

(** X5: a request throws the propid error exactly when it has no options
    or a falsy propid; the default configuration has been loaded all the
    same, and nothing else has happened. *)
Theorem propid_is_required options st :
  ((getSimilarProperties options st).1 = Thrown propidRequired <->
   options = None \/
   exists o, options = Some o /\ truthy (opt_propid o) = false) /\
  ((getSimilarProperties options st).1 = Thrown propidRequired ->
   (getSimilarProperties options st).2 = (loadDefaultAlgo st).2).
Proof.
  rewrite getSimilarProperties_run, loadDefaultAlgo_run. cbn [fst snd].
  assert (answer (baseOf st) options = Thrown propidRequired <->
          options = None \/
          exists o, options = Some o /\ truthy (opt_propid o) = false) as Hiff.
  { unfold answer. destruct options as [o|]; [|by split; auto].
    destruct (truthy (opt_propid o)) eqn:Hid.
    - split.
      + destruct (fetch_target (opt_propid o)) as [[|t rest]|];
          try discriminate.
        by destruct (fetch_candidates (legalabssubcode t) (opt_propid o)).
      + intros [|(o' & [= <-] & Hf)]; [done|congruence].
    - split; [|done]. intros _. right. by exists o. }
  split; [exact Hiff|].
  intros Hthrown. apply Hiff in Hthrown.
  assert (warnings (baseOf st) options = []) as ->.
  { unfold warnings. destruct Hthrown as [->|(o & -> & ->)]; done. }
  rewrite app_nil_r. unfold baseOf, loadLog.
  destruct (defaultAlgo st) eqn:E; [|reflexivity].
  destruct st. cbn in *. by rewrite E, app_nil_r.
Qed.

(** X7: a request returns only when it has a truthy propid, the target
    query has answered with at least one row and the candidates query
    for the first row's subdivision has answered; the result then has
    that first row as target (later rows are ignored), its subdivision
    code, the number of candidates fetched, and only fetched candidates
    among its comps. *)
Theorem request_returns options st res :
  (getSimilarProperties options st).1 = Returned res ->
  exists o t rest candidates,
    options = Some o /\ truthy (opt_propid o) = true /\
    fetch_target (opt_propid o) = Some (t :: rest) /\
    fetch_candidates (legalabssubcode t) (opt_propid o) = Some candidates /\
    target res = t /\ legal res = legalabssubcode t /\
    totalCandidates res = length candidates /\
    forall c, c ∈ comps res -> record c ∈ candidates.
Proof.
  rewrite getSimilarProperties_run. cbn [fst]. unfold answer.
  destruct options as [o|]; [|discriminate].
  destruct (truthy (opt_propid o)) eqn:Hid; [|discriminate].
  destruct (fetch_target (opt_propid o)) as [[|t rest]|] eqn:Ht;
    try discriminate.
  destruct (fetch_candidates (legalabssubcode t) (opt_propid o))
    as [candidates|] eqn:Hc; [|discriminate].
  intros [= <-]. exists o, t, rest, candidates. repeat split; try done.
  intros c Hin. apply comps_elem in Hin as (r & Hr & _ & ->). exact Hr.
Qed.

(** X8: requests do not interfere: on one host, the outcome of a request
    that follows another request is the outcome it has on its own. *)
Theorem requests_do_not_interfere first second st :
  (getSimilarProperties second (getSimilarProperties first st).2).1
    = (getSimilarProperties second st).1.
Proof.
  rewrite !getSimilarProperties_run. cbn [fst snd].
  unfold baseOf at 1. reflexivity.
Qed.

End RequestProperties.

(** X2: once a configuration is cached, the default-configuration file
    plays no part: hosts that differ in the file only run every request
    alike. *)
Theorem cached_default_needs_no_file (h : Host) file options st base :
  defaultAlgo st = Some base ->
  getSimilarProperties (H := withDefaultFile h file) options st
    = getSimilarProperties (H := h) options st.
Proof.
  intros Hc. rewrite !getSimilarProperties_run.
  destruct (baseOf_cached (H := h) st base Hc) as [-> ->].
  destruct (baseOf_cached (H := withDefaultFile h file) st base Hc)
    as [-> ->].
  reflexivity.
Qed.

(** ** The filter and the scores *)

Section FilterProperties.
Context `{Host}.

Lemma relDiff_NaN_r a b : ToNumber b = NaN -> relDiff a b = NaN.
Proof. unfold relDiff. intros ->. by destruct (ToNumber a). Qed.

Lemma yearGap_NaN_r r t :
  ToNumber (imprvyearbuilt t) = NaN -> yearGap r t = NaN.
Proof.
  unfold yearGap. intros ->. by destruct (ToNumber (imprvyearbuilt r)).
Qed.

Lemma filter_nothing {A} (f : A -> bool) (l : list A) :
  (forall x, f x = false) -> List.filter f l = [].
Proof.
  intros Hf. induction l as [|x l IH]; [reflexivity|].
  cbn [List.filter]. by rewrite Hf.
Qed.

Lemma filter_sublist_impl {A} (f g : A -> bool) (l : list A) :
  (forall x, f x = true -> g x = true) ->
  List.filter f l `sublist_of` List.filter g l.
Proof.
  intros Hfg. induction l as [|x l IH]; [constructor|].
  cbn [List.filter]. destruct (f x) eqn:Ef.
  - rewrite (Hfg x Ef). by constructor.
  - destruct (g x); [by constructor|done].
Qed.

(** X9: when the target lacks one of the four attributes (or has one
    that is no number), no candidate passes the filter, whatever the
    cutoffs: the result has no comps and reports 0 filtered
    candidates. *)
Theorem target_without_attribute algo lim t candidates :
  lacks_attribute t ->
  filterCandidates (cutoffs algo) t candidates = [] /\
  comps (compare algo lim t candidates) = [] /\
  filteredCandidates (compare algo lim t candidates) = 0%nat.
Proof.
  intros Hlack.
  assert (filterCandidates (cutoffs algo) t candidates = []) as Hnone.
  { apply filter_nothing. intros r. unfold passesCutoffs.
    destruct Hlack as [Ha|[Hm|[Hl|Hy]]].
    - rewrite (relDiff_NaN_r _ _ Ha). cbn [Num.leb].
      by rewrite !andb_false_r.
    - rewrite (relDiff_NaN_r _ _ Hm). cbn [Num.leb].
      by rewrite !andb_false_r.
    - rewrite (relDiff_NaN_r _ _ Hl). cbn [Num.leb].
      by rewrite !andb_false_r.
    - rewrite (yearGap_NaN_r _ _ Hy). cbn [Num.leb].
      by rewrite !andb_false_r. }
  split; [exact Hnone|].
  cbn [comps filteredCandidates compare]. unfold scored. rewrite Hnone.
  cbn [map sort]. unfold slice0. by rewrite firstn_nil.
Qed.

(** X10: widening the cutoffs never loses a candidate: the rows that
    pass narrower cutoffs are, in order, among the rows that pass wider
    ones. *)
Theorem wider_cutoffs_keep_more c1 c2 t candidates :
  cutoffs_within c1 c2 ->
  filterCandidates c1 t candidates
    `sublist_of` filterCandidates c2 t candidates.
Proof.
  intros (Ha & Hm & Hl & Hy). apply filter_sublist_impl.
  intros r. unfold passesCutoffs. rewrite !andb_true_iff.
  intros [[[[[[[T1 T2] T3] T4] Ca] Cm] Cl] Cy].
  repeat split; try done; eapply NumFacts.leb_trans; eauto.
Qed.

End FilterProperties.

Section ScoreProperties.
Context `{Host}.

Lemma div_100 g : (Fin g / Fin 100)%num = Fin (g / 100).
Proof. reflexivity. Qed.

Lemma leb_zero_cutoff d c :
  d == 0 -> Num.leb (Fin 0) c = true -> Num.leb (Fin d) c = true.
Proof.
  intros Hd. destruct c as [| | |q]; cbn; try done.
  rewrite !Qle_bool_iff. lra.
Qed.

Lemma relDiff_self a :
  0 < a ->
  exists d, relDiff (JNum (Fin a)) (JNum (Fin a)) = Fin d /\ d == 0.
Proof.
  intros Ha. eexists. split; [by apply relDiff_Fin|].
  assert (Qabs (a - a) == 0) as -> by (apply Qabs_zero_iff; lra).
  unfold Qdiv. lra.
Qed.

Lemma yearGap_self r t y :
  imprvyearbuilt r = JNum (Fin y) -> imprvyearbuilt t = JNum (Fin y) ->
  exists g, yearGap r t = Fin g /\ g == 0.
Proof.
  intros Hr Ht. unfold yearGap. rewrite Hr, Ht. cbn [ToNumber].
  eexists. split; [reflexivity|].
  apply Qabs_zero_iff. lra.
Qed.

(** X11: a candidate with the same four positive attributes as the
    target passes every set of cutoffs that are not negative, and with
    finite weights its base similarity and its price-bias contribution
    are both zero. *)
Theorem twin_of_the_target algo t r candidates :
  positive_attributes t -> same_attributes r t ->
  nonnegative_cutoffs (cutoffs algo) -> finite_weights (weights algo) ->
  r ∈ candidates ->
  r ∈ filterCandidates (cutoffs algo) t candidates /\
  forall factor,
    Num.eqb (baseSimilarity (scoreCandidate (weights algo) (priceBias algo)
                               factor t r)) (Fin 0) = true /\
    Num.eqb (priceBiasValue (scoreCandidate (weights algo) (priceBias algo)
                               factor t r)) (Fin 0) = true.
Proof.
  intros (a & m & l & y & Ta & Tm & Tl & Ty & Ha & Hm & Hl & Hy)
         (Ra & Rm & Rl & Ry) (Ca & Cm & Cl & Cy)
         ((wa & Wa) & (wm & Wm) & (wl & Wl) & (wy & Wy)) Hin.
  rewrite Ta in Ra. rewrite Tm in Rm. rewrite Tl in Rl. rewrite Ty in Ry.
  destruct (relDiff_self a Ha) as (da & Hda & Za).
  destruct (relDiff_self m Hm) as (dm & Hdm & Zm).
  destruct (relDiff_self l Hl) as (dl & Hdl & Zl).
  destruct (yearGap_self r t y Ry Ty) as (g & Hg & Zg).
  split.
  - apply elem_of_filter. split; [exact Hin|].
    unfold passesCutoffs. rewrite Hg, Ra, Rm, Rl, Ry, Ta, Tm, Tl.
    rewrite Hda, Hdm, Hdl.
    rewrite (leb_zero_cutoff _ _ Za Ca), (leb_zero_cutoff _ _ Zm Cm),
      (leb_zero_cutoff _ _ Zl Cl), (leb_zero_cutoff _ _ Zg Cy).
    cbn [truthy Num.truthy].
    rewrite !(proj2 (NumFacts.Qeq_bool_false _ 0)) by lra. reflexivity.
  - intros factor. cbn [baseSimilarity priceBiasValue scoreCandidate]. split.
    + unfold baseSimilarityOf. rewrite Hg, Ra, Rm, Rl, Ta, Tm, Tl.
      rewrite Hda, Hdm, Hdl, Wa, Wm, Wl, Wy, div_100.
      cbn [Num.mul Num.add Num.eqb]. apply Qeq_bool_iff.
      rewrite Za, Zm, Zl, Zg. unfold Qdiv. lra.
    + unfold priceBiasValueOf. rewrite Rm, Tm. cbn [ToNumber].
      destruct (truthy (prop (priceBias algo) "enabled")); [|reflexivity].
      cbn [Num.div].
      rewrite (proj2 (NumFacts.Qeq_bool_false m 0)) by lra.
      cbn [Num.sub Num.neg Num.add]. unfold Num.max.
      cbn [Num.isNaN orb Num.leb].
      destruct (Qle_bool 0 (m / m + - (1))); [|reflexivity].
      cbn [Num.eqb]. apply Qeq_bool_iff. field. lra.
Qed.

Lemma relDiff_passing_bounds a t c :
  positive_number t ->
  (relDiff a t <=? Fin c)%num = true ->
  exists d, relDiff a t = Fin d /\ 0 <= d /\ d <= c.
Proof.
  intros (tq & Ht & Hpos). unfold relDiff. rewrite Ht.
  destruct (ToNumber a) as [| | |x];
    cbn [Num.sub Num.neg Num.add Num.abs]; unfold Num.max;
    cbn [Num.isNaN orb Num.leb Num.div]; try discriminate.
  - destruct (Qlt_bool tq 0) eqn:E; [|discriminate].
    apply NumFacts.Qlt_bool_iff in E. lra.
  - assert (forall mx, 0 < mx ->
              (Fin (Qabs (x + - tq)) / Fin mx <=? Fin c)%num = true ->
              exists d, (Fin (Qabs (x + - tq)) / Fin mx)%num = Fin d /\
                        0 <= d /\ d <= c) as Hdiv.
    { intros mx Hmx. cbn [Num.div].
      rewrite (proj2 (NumFacts.Qeq_bool_false mx 0)) by lra.
      cbn [Num.leb]. rewrite Qle_bool_iff. intros Hle.
      eexists. split; [reflexivity|]. split; [|exact Hle].
      apply Qle_shift_div_l; [done|]. rewrite Qmult_0_l. apply Qabs_nonneg. }
    destruct (Qle_bool x tq) eqn:E.
    + by apply Hdiv.
    + apply NumFacts.Qle_bool_false in E. apply Hdiv. lra.
Qed.

Lemma yearGap_passing_bounds r t c :
  finite_number (imprvyearbuilt t) ->
  (yearGap r t <=? Fin c)%num = true ->
  exists g, yearGap r t = Fin g /\ 0 <= g /\ g <= c.
Proof.
  intros (tq & Ht). unfold yearGap. rewrite Ht.
  destruct (ToNumber (imprvyearbuilt r)) as [| | |x];
    cbn [Num.sub Num.neg Num.add Num.abs Num.leb]; try discriminate.
  rewrite Qle_bool_iff. intros Hle.
  eexists. split; [reflexivity|]. split; [apply Qabs_nonneg|exact Hle].
Qed.

(** X12: with finite weights that are not negative, finite cutoffs and a
    target of positive area and values, the base similarity of every
    ranked candidate is at least 0 and at most the same weighted sum
    taken at the cutoffs, [area * areaPct + market * marketPct +
    land * landPct + year * (yearDiff / 100)]. *)
Theorem baseSimilarity_within_cutoffs algo lim t candidates c
    wa wm wl wy ca cm cl cy :
  ToNumber (prop (weights algo) "area") = Fin wa ->
  ToNumber (prop (weights algo) "market") = Fin wm ->
  ToNumber (prop (weights algo) "land") = Fin wl ->
  ToNumber (prop (weights algo) "year") = Fin wy ->
  ToNumber (prop (cutoffs algo) "areaPct") = Fin ca ->
  ToNumber (prop (cutoffs algo) "marketPct") = Fin cm ->
  ToNumber (prop (cutoffs algo) "landPct") = Fin cl ->
  ToNumber (prop (cutoffs algo) "yearDiff") = Fin cy ->
  0 <= wa -> 0 <= wm -> 0 <= wl -> 0 <= wy ->
  positive_number (imprvmainarea t) -> positive_number (prevvalmarket t) ->
  positive_number (prevvalland t) -> finite_number (imprvyearbuilt t) ->
  c ∈ comps (compare algo lim t candidates) ->
  Num.leb (Fin 0) (baseSimilarity c) = true /\
  Num.leb (baseSimilarity c)
    (ToNumber (prop (weights algo) "area")
       * ToNumber (prop (cutoffs algo) "areaPct") +
     ToNumber (prop (weights algo) "market")
       * ToNumber (prop (cutoffs algo) "marketPct") +
     ToNumber (prop (weights algo) "land")
       * ToNumber (prop (cutoffs algo) "landPct") +
     ToNumber (prop (weights algo) "year")
       * (ToNumber (prop (cutoffs algo) "yearDiff") / Fin 100))%num = true.
Proof.
  intros Wa Wm Wl Wy Ca Cm Cl Cy Pa Pm Pl Py Ta Tm Tl Ty Hc.
  apply comps_elem in Hc as (r & _ & Hp & ->).
  unfold passesCutoffs in Hp. rewrite !andb_true_iff in Hp.
  destruct Hp as [[[[_ Ha] Hm] Hl] Hy].
  rewrite Ca in Ha. rewrite Cm in Hm. rewrite Cl in Hl. rewrite Cy in Hy.
  destruct (relDiff_passing_bounds _ _ _ Ta Ha) as (da & Hda & Da0 & Da1).
  destruct (relDiff_passing_bounds _ _ _ Tm Hm) as (dm & Hdm & Dm0 & Dm1).
  destruct (relDiff_passing_bounds _ _ _ Tl Hl) as (dl & Hdl & Dl0 & Dl1).
  destruct (yearGap_passing_bounds _ _ _ Ty Hy) as (g & Hg & G0 & G1).
  cbn [baseSimilarity scoreCandidate]. unfold baseSimilarityOf.
  rewrite Hda, Hdm, Hdl, Hg, Wa, Wm, Wl, Wy, Ca, Cm, Cl, Cy, !div_100.
  cbn [Num.mul Num.add Num.leb]. rewrite !Qle_bool_iff.
  assert (0 <= g / 100 /\ g / 100 <= cy / 100) as [G0' G1'].
  { assert (0 <= / 100) as Hinv by (unfold Qle; cbn; lia).
    unfold Qdiv. split.
    - by apply Qmult_le_0_compat.
    - by apply Qmult_le_compat_r. }
  pose proof (Qmult_le_0_compat _ _ Pa Da0).
  pose proof (Qmult_le_0_compat _ _ Pm Dm0).
  pose proof (Qmult_le_0_compat _ _ Pl Dl0).
  pose proof (Qmult_le_0_compat _ _ Py G0').
  assert (forall w d k, 0 <= w -> d <= k -> w * d <= w * k) as Hmono.
  { intros w d k Hw Hdk. rewrite !(Qmult_comm w).
    by apply Qmult_le_compat_r. }
  pose proof (Hmono _ _ _ Pa Da1).
  pose proof (Hmono _ _ _ Pm Dm1).
  pose proof (Hmono _ _ _ Pl Dl1).
  pose proof (Hmono _ _ _ Py G1').
  split; lra.
Qed.

(** X13: with the price bias switched off and a finite bias weight, the
    similarity of every ranked candidate equals its base similarity (when
    that is a number), regardless of price. *)
Theorem similarity_without_bias algo lim t candidates c :
  truthy (prop (priceBias algo) "enabled") = false ->
  finite_number (prop (priceBias algo) "weight") ->
  c ∈ comps (compare algo lim t candidates) ->
  baseSimilarity c <> NaN ->
  Num.eqb (similarity c) (baseSimilarity c) = true.
Proof.
  intros Hoff (w & Hw) Hc.
  apply comps_elem in Hc as (r & _ & _ & ->).
  cbn [similarity baseSimilarity scoreCandidate].
  unfold availabilityFactor, priceBiasValueOf. rewrite Hoff, Hw.
  cbn [Num.mul].
  destruct (baseSimilarityOf (weights algo) t r) as [| | |b];
    cbn [Num.add Num.eqb]; try done.
  intros _. apply Qeq_bool_iff. lra.
Qed.

(** X14: the availability factor never exceeds 1, and with the bias
    enabled and a positive [fullBiasAt] it is a number between 0 and 1
    that reaches 1 as soon as there are [fullBiasAt] candidates. *)
Theorem availabilityFactor_bounds pb candidates :
  Num.ltb (Fin 1) (availabilityFactor pb candidates) = false /\
  (forall f,
     truthy (prop pb "enabled") = true ->
     ToNumber (prop pb "fullBiasAt") = Fin f -> 0 < f ->
     exists x,
       availabilityFactor pb candidates = Fin x /\ 0 <= x /\ x <= 1 /\
       (f <= inject_Z (Z.of_nat (length candidates)) -> x == 1)).
Proof.
  unfold availabilityFactor. split.
  - destruct (truthy (prop pb "enabled")); [|reflexivity].
    unfold Num.min. cbn [Num.isNaN orb].
    destruct (Num.isNaN _); [reflexivity|].
    destruct (Num.leb (Fin 1) _) eqn:E; [reflexivity|].
    destruct (Num.ltb (Fin 1) _) eqn:E'; [|reflexivity].
    apply NumFacts.ltb_leb in E'. congruence.
  - intros f -> -> Hf. unfold Num.of_nat. cbn [Num.div].
    rewrite (proj2 (NumFacts.Qeq_bool_false f 0)) by lra.
    set (n := inject_Z (Z.of_nat (length candidates))).
    assert (0 <= n) as Hn.
    { unfold n, Qle. cbn. lia. }
    assert (0 <= n / f) as Hq.
    { apply Qle_shift_div_l; [done|]. lra. }
    unfold Num.min. cbn [Num.isNaN orb Num.leb].
    destruct (Qle_bool 1 (n / f)) eqn:E.
    + exists 1. repeat split; try lra.
    + apply NumFacts.Qle_bool_false in E.
      exists (n / f). repeat split; try lra.
      intros Hfn. exfalso.
      assert (1 <= n / f); [|lra].
      apply Qle_shift_div_l; [done|]. lra.
Qed.

End ScoreProperties.

(** ** The limit and the ranked list *)

Section LimitProperties.
Context `{Host}.

Lemma ranked_length algo lim t candidates :
  length (comps (compare algo lim t candidates)) =
    Nat.min
      (Z.to_nat (sliceEnd
         (Z.of_nat (length (filterCandidates (cutoffs algo) t candidates)))
         lim))
      (length (filterCandidates (cutoffs algo) t candidates)).
Proof.
  cbn [comps compare]. unfold scored, slice0.
  by rewrite length_firstn, (sort_length similarity), length_map.
Qed.

Lemma trunc_floor q : 0 < q -> Num.trunc q = Qfloor q /\ (0 <= Qfloor q)%Z.
Proof.
  destruct q as [a b]. unfold Qlt, Num.trunc, Qfloor. cbn.
  intros Ha. split.
  - apply Z.quot_div_nonneg; lia.
  - apply Z.div_pos; lia.
Qed.

(** X15: how the limit cuts the ranking. The ranked list is never longer
    than the number of candidates that pass the filter. A positive
    limit keeps as many as its integer part; a negative integer limit
    [-k] drops the last [k]; an infinite limit keeps all; and the limit
    [true] keeps one. *)
Theorem ranked_length_by_limit algo o t candidates :
  let passed := length (filterCandidates (cutoffs algo) t candidates) in
  let ranked := comps (compare algo (LIMIT o) t candidates) in
  (length ranked <= passed)%nat /\
  (forall q, limit o = JNum (Fin q) -> 0 < q ->
     length ranked = Nat.min (Z.to_nat (Qfloor q)) passed) /\
  (forall q (k : nat),
     limit o = JNum (Fin q) -> q == - inject_Z (Z.of_nat k) -> (0 < k)%nat ->
     length ranked = (passed - k)%nat) /\
  (limit o = JNum PInf -> length ranked = passed) /\
  (limit o = JBool true -> length ranked = Nat.min 1 passed).
Proof.
  intros passed ranked. unfold ranked, passed.
  split; [rewrite ranked_length; lia|].
  split; [|split; [|split]].
  - intros q Hl Hq. rewrite ranked_length. unfold LIMIT. rewrite Hl.
    cbn [truthy Num.truthy].
    rewrite (proj2 (NumFacts.Qeq_bool_false q 0)) by lra. cbn [negb].
    unfold sliceEnd. cbn [ToNumber].
    destruct (trunc_floor q Hq) as [-> Hf].
    destruct (Z.ltb_spec (Qfloor q) 0); lia.
  - intros q k Hl Hq Hk. rewrite ranked_length. unfold LIMIT. rewrite Hl.
    cbn [truthy Num.truthy].
    assert (~ q == 0) as Hne.
    { rewrite Hq. unfold Qeq. cbn. lia. }
    rewrite (proj2 (NumFacts.Qeq_bool_false q 0) Hne). cbn [negb].
    unfold sliceEnd. cbn [ToNumber].
    assert (q == inject_Z (- Z.of_nat k)) as Hz.
    { rewrite Hq. unfold Qeq. cbn. lia. }
    rewrite (NumFacts.trunc_integer _ _ Hz).
    destruct (Z.ltb_spec (- Z.of_nat k) 0); lia.
  - intros Hl. rewrite ranked_length. unfold LIMIT. rewrite Hl.
    cbn. lia.
  - intros Hl. rewrite ranked_length. unfold LIMIT. rewrite Hl.
    cbn [truthy sliceEnd ToNumber].
    change (Num.trunc 1) with 1%Z. cbn [Z.ltb Z.compare]. lia.
Qed.

(** X16: the comps are drawn from the fetched candidates: their rows
    form, up to order, a sub-multiset of the candidates, so that no row
    is invented and none is returned more often than it was fetched. *)
Theorem comps_drawn_from_candidates algo lim t candidates :
  map record (comps (compare algo lim t candidates)) ⊆+ candidates.
Proof.
  cbn [comps compare]. unfold scored, slice0.
  set (factor := availabilityFactor (priceBias algo) candidates).
  set (passed := filterCandidates (cutoffs algo) t candidates).
  set (score := scoreCandidate (weights algo) (priceBias algo) factor t).
  assert (map record (map score passed) = passed) as Hrec.
  { induction passed as [|r l IH]; [reflexivity|].
    cbn [map]. by rewrite IH. }
  transitivity (map record (sort bySimilarity (map score passed))).
  - apply (fmap_submseteq record), sublist_submseteq, sublist_take.
  - transitivity passed.
    + apply Permutation_submseteq.
      change (record <$> sort bySimilarity (map score passed) ≡ₚ passed).
      rewrite (sort_perm similarity). by rewrite <- Hrec at 2.
    + apply sublist_submseteq, filter_sublist.
Qed.

End LimitProperties.

(** ** Overrides *)

Section OverrideProperties.
Context `{Host}.

Lemma dom_mergeGroup (base : obj) g : dom base ⊆ dom (mergeGroup base g).
Proof.
  unfold mergeGroup, spread. destruct (truthy g); [|done].
  rewrite dom_union. set_solver.
Qed.

(** X17: an override adds or replaces keys and never removes one:
    whatever the override - an object, a text, well formed or not -
    resolution answers with a configuration in which every key of each
    base group is still present. *)
Theorem override_keeps_base_keys base custom st :
  exists algo st',
    resolveAlgo base custom st = (Returned algo, st') /\
    dom (weights base) ⊆ dom (weights algo) /\
    dom (cutoffs base) ⊆ dom (cutoffs algo) /\
    dom (priceBias base) ⊆ dom (priceBias algo).
Proof.
  rewrite resolveAlgo_run. eexists _, _. split; [reflexivity|].
  unfold resolved, overrideAlgo.
  destruct (truthy custom); [|done].
  destruct (parseAlgo custom) as [algo|]; [|done].
  destruct (group algo "weights"); [|done].
  destruct (group algo "cutoffs");
    [|cbn; repeat split; first [apply dom_mergeGroup | done]].
  destruct (group algo "priceBias");
    cbn; repeat split; first [apply dom_mergeGroup | done].
Qed.

(** X18: resolution reads the three group names of an override object
    and nothing else: two override objects that agree on [weights],
    [cutoffs] and [priceBias] resolve alike, whatever else they hold. *)
Theorem override_reads_three_groups base (o1 o2 : obj) st :
  o1 !! "weights" = o2 !! "weights" ->
  o1 !! "cutoffs" = o2 !! "cutoffs" ->
  o1 !! "priceBias" = o2 !! "priceBias" ->
  resolveAlgo base (JObj o1) st = resolveAlgo base (JObj o2) st.
Proof.
  intros Hw Hc Hp. unfold resolveAlgo, overrideAlgo.
  cbn [truthy parseAlgo group]. unfold prop. by rewrite Hw, Hc, Hp.
Qed.

(** X19: an override that is, or parses to, something other than an
    object changes nothing: resolution answers with the base
    configuration, with the warning when the parsed value is [null]
    (reading its groups throws) and silently when it is a number, a
    boolean or a string. *)
Theorem override_without_groups base custom v st :
  truthy custom = true -> parseAlgo custom = Some v ->
  (forall p, v <> JObj p) ->
  resolveAlgo base custom st =
    (Returned base,
     {| defaultAlgo := defaultAlgo st;
        console := console st ++
          (if nullish v then [invalidAlgoWarning] else []) |}).
Proof.
  intros Ht Hp Hv. rewrite resolveAlgo_run.
  unfold resolved, overrideAlgo. rewrite Ht, Hp.
  destruct base.
  destruct v as [| | | | |p]; cbn; try reflexivity.
  by destruct (Hv p).
Qed.

End OverrideProperties.


(** ** The relative difference and the price bias, continued *)

Section NumericProperties.
Context `{Host}.


(** X21: with the bias enabled and a positive target price, the
    price-bias contribution never decreases as the candidate's market
    value rises. *)
Theorem price_bias_is_monotone pb t r1 r2 tm m1 m2 :
  truthy (prop pb "enabled") = true ->
  ToNumber (prevvalmarket t) = Fin tm -> 0 < tm ->
  ToNumber (prevvalmarket r1) = Fin m1 ->
  ToNumber (prevvalmarket r2) = Fin m2 ->
  m1 <= m2 ->
  Num.leb (priceBiasValueOf pb t r1) (priceBiasValueOf pb t r2) = true.
Proof.
  intros He Ht Htm H1 H2 Hle. unfold priceBiasValueOf.
  rewrite He, Ht, H1, H2. cbn [Num.div].
  rewrite (proj2 (NumFacts.Qeq_bool_false tm 0)) by lra.
  cbn [Num.sub Num.neg Num.add]. unfold Num.max.
  cbn [Num.isNaN orb Num.leb].
  assert (0 < / tm) as Hinv by (apply Qinv_lt_0_compat; lra).
  assert (m1 / tm <= m2 / tm) as Hq.
  { unfold Qdiv. apply Qmult_le_compat_r; lra. }
  destruct (Qle_bool 0 (m1 / tm + - (1))) eqn:E1,
    (Qle_bool 0 (m2 / tm + - (1))) eqn:E2; cbn [Num.leb];
    apply Qle_bool_iff;
    try apply Qle_bool_iff in E1; try apply Qle_bool_iff in E2;
    try apply NumFacts.Qle_bool_false in E1;
    try apply NumFacts.Qle_bool_false in E2; lra.
Qed.

(** X22: the counts of a result are ordered: [filteredCandidates] is the
    length of the comps, which is at most the number of candidates that
    pass the filter, which is at most [totalCandidates]. *)
Theorem result_counts_ordered algo lim t candidates :
  let res := compare algo lim t candidates in
  filteredCandidates res = length (comps res) /\
  (length (comps res)
   <= length (filterCandidates (cutoffs algo) t candidates))%nat /\
  (length (filterCandidates (cutoffs algo) t candidates)
   <= totalCandidates res)%nat.
Proof.
  cbn zeta. split; [reflexivity|]. split.
  - rewrite ranked_length. lia.
  - cbn [totalCandidates compare].
    apply sublist_length, filter_sublist.
Qed.

End NumericProperties.

(** ** The further properties on sample requests *)

Lemma cached_default_needs_no_file_witness :
  defaultAlgo warmRuntime = Some fallbackAlgo /\
  getSimilarProperties
    (H := withDefaultFile twoCandidateHost (Some unbiasedAlgo))
    (Some defaultRequest) warmRuntime
  = getSimilarProperties (H := twoCandidateHost)
      (Some defaultRequest) warmRuntime.
Proof.
  split; [reflexivity|].
  exact (cached_default_needs_no_file twoCandidateHost (Some unbiasedAlgo)
           (Some defaultRequest) warmRuntime fallbackAlgo eq_refl).
Defined.

Lemma first_request_loads_default_witness :
  defaultAlgo freshRuntime = None /\
  getSimilarProperties (H := twoCandidateHost)
    (Some defaultRequest) freshRuntime
  = getSimilarProperties (H := twoCandidateHost) (Some defaultRequest)
      {| defaultAlgo := Some fallbackAlgo; console := [loadError] |}.
Proof.
  split; [reflexivity|].
  exact (first_request_loads_default (H := twoCandidateHost)
           (Some defaultRequest) freshRuntime eq_refl).
Defined.

Lemma request_returns_witness :
  exists res,
    (getSimilarProperties (H := twoCandidateHost)
       (Some defaultRequest) freshRuntime).1 = Returned res /\
    target res = sampleTarget /\ totalCandidates res = 2%nat.
Proof.
  set (res := compare (H := twoCandidateHost) fallbackAlgo (JNum (Fin 10))
                sampleTarget twoCandidates).
  assert ((getSimilarProperties (H := twoCandidateHost)
             (Some defaultRequest) freshRuntime).1 = Returned res) as Hrun
    by (vm_compute; reflexivity).
  destruct (request_returns (H := twoCandidateHost) _ _ _ Hrun)
    as (o & t & rest & cs & _ & _ & _ & _ & _ & _ & _ & _).
  exists res. split; [exact Hrun|]. split; reflexivity.
Defined.

Lemma target_without_attribute_witness :
  lacks_attribute (H := twoCandidateHost) undatedTarget /\
  comps (compare (H := twoCandidateHost) fallbackAlgo (JNum (Fin 10))
           undatedTarget twoCandidates) = [].
Proof.
  assert (lacks_attribute (H := twoCandidateHost) undatedTarget) as Hl
    by (do 3 right; reflexivity).
  split; [exact Hl|].
  exact (proj1 (proj2 (target_without_attribute (H := twoCandidateHost)
                         fallbackAlgo (JNum (Fin 10)) undatedTarget
                         twoCandidates Hl))).
Defined.

Lemma wider_cutoffs_keep_more_witness :
  cutoffs_within (H := twoCandidateHost) (cutoffs fallbackAlgo) wideCutoffs /\
  filterCandidates (H := twoCandidateHost) (cutoffs fallbackAlgo)
    sampleTarget twoCandidates
  `sublist_of`
  filterCandidates (H := twoCandidateHost) wideCutoffs
    sampleTarget twoCandidates.
Proof.
  assert (cutoffs_within (H := twoCandidateHost)
            (cutoffs fallbackAlgo) wideCutoffs) as Hw
    by (repeat split; vm_compute; reflexivity).
  split; [exact Hw|].
  exact (wider_cutoffs_keep_more (H := twoCandidateHost) _ _
           sampleTarget twoCandidates Hw).
Defined.

Lemma twin_of_the_target_witness :
  positive_attributes sampleTarget /\
  same_attributes twinCandidate sampleTarget /\
  twinCandidate ∈ filterCandidates (H := twoCandidateHost)
                    (cutoffs fallbackAlgo) sampleTarget threeCandidates.
Proof.
  assert (positive_attributes sampleTarget) as Hp.
  { exists 2000, 300000, 50000, 2005. repeat split. }
  assert (same_attributes twinCandidate sampleTarget) as Hs
    by (repeat split).
  assert (nonnegative_cutoffs (H := twoCandidateHost) (cutoffs fallbackAlgo))
    as Hc by (repeat split; vm_compute; reflexivity).
  assert (finite_weights (H := twoCandidateHost) (weights fallbackAlgo))
    as Hw by (repeat split; by eexists).
  assert (twinCandidate ∈ threeCandidates) as Hin by (by left).
  split; [exact Hp|]. split; [exact Hs|].
  exact (proj1 (twin_of_the_target (H := twoCandidateHost) fallbackAlgo
                  sampleTarget twinCandidate threeCandidates
                  Hp Hs Hc Hw Hin)).
Defined.

Lemma baseSimilarity_within_cutoffs_witness :
  exists c,
    c ∈ comps (compare (H := twoCandidateHost) fallbackAlgo (JNum (Fin 10))
                 sampleTarget twoCandidates) /\
    Num.leb (Fin 0) (baseSimilarity c) = true /\
    Num.leb (baseSimilarity c) (Fin 0.14) = true.
Proof.
  set (c := scoreCandidate (H := twoCandidateHost)
              (weights fallbackAlgo) (priceBias fallbackAlgo)
              (availabilityFactor (H := twoCandidateHost)
                 (priceBias fallbackAlgo) twoCandidates)
              sampleTarget (sampleCandidate "A")).
  assert (c ∈ comps (compare (H := twoCandidateHost) fallbackAlgo
                       (JNum (Fin 10)) sampleTarget twoCandidates)) as Hin.
  { apply list_elem_of_In. vm_compute. left. reflexivity. }
  destruct (baseSimilarity_within_cutoffs (H := twoCandidateHost)
              fallbackAlgo (JNum (Fin 10)) sampleTarget twoCandidates c
              0.4 0.2 0.1 0.3 0.1 0.2 0.3 10
              eq_refl eq_refl eq_refl eq_refl eq_refl eq_refl eq_refl eq_refl
              ltac:(discriminate) ltac:(discriminate)
              ltac:(discriminate) ltac:(discriminate)
              ltac:(by eexists; split) ltac:(by eexists; split)
              ltac:(by eexists; split) ltac:(by eexists) Hin)
    as (H0 & H1).
  exists c. split; [exact Hin|]. split; [exact H0|].
  eapply NumFacts.leb_trans; [exact H1|]. vm_compute. reflexivity.
Defined.

Lemma similarity_without_bias_witness :
  exists c,
    c ∈ comps (compare (H := twoCandidateHost) unbiasedAlgo (JNum (Fin 10))
                 sampleTarget twoCandidates) /\
    record c = sampleCandidate "A" /\
    Num.eqb (similarity c) (baseSimilarity c) = true.
Proof.
  set (c := scoreCandidate (H := twoCandidateHost)
              (weights unbiasedAlgo) (priceBias unbiasedAlgo)
              (availabilityFactor (H := twoCandidateHost)
                 (priceBias unbiasedAlgo) twoCandidates)
              sampleTarget (sampleCandidate "A")).
  assert (c ∈ comps (compare (H := twoCandidateHost) unbiasedAlgo
                       (JNum (Fin 10)) sampleTarget twoCandidates)) as Hin.
  { apply list_elem_of_In. vm_compute. left. reflexivity. }
  exists c. split; [exact Hin|]. split; [reflexivity|].
  apply (similarity_without_bias (H := twoCandidateHost) unbiasedAlgo
           (JNum (Fin 10)) sampleTarget twoCandidates c);
    [reflexivity|by eexists|exact Hin|].
  vm_compute. discriminate.
Defined.

Lemma override_reads_three_groups_witness :
  annotatedOverride !! "note" = Some (JStr "reviewed") /\
  resolveAlgo (H := twoCandidateHost) fallbackAlgo (JObj areaOverride)
    freshRuntime
  = resolveAlgo (H := twoCandidateHost) fallbackAlgo (JObj annotatedOverride)
      freshRuntime.
Proof.
  split; [reflexivity|].
  apply (override_reads_three_groups (H := twoCandidateHost));
    vm_compute; reflexivity.
Defined.

Lemma override_without_groups_witness :
  JSON_parse (Host := nullTextHost) "null" = Some JNull /\
  resolveAlgo (H := nullTextHost) fallbackAlgo (JStr "null") freshRuntime
  = (Returned fallbackAlgo,
     {| defaultAlgo := None; console := [invalidAlgoWarning] |}).
Proof.
  assert (JSON_parse (Host := nullTextHost) "null" = Some JNull) as Hp
    by reflexivity.
  split; [exact Hp|].
  apply (override_without_groups (H := nullTextHost) fallbackAlgo
           (JStr "null") JNull freshRuntime eq_refl Hp).
  discriminate.
Defined.

Lemma price_bias_is_monotone_witness :
  Num.leb
    (priceBiasValueOf (H := twoCandidateHost) (priceBias fallbackAlgo)
       sampleTarget twinCandidate)
    (priceBiasValueOf (H := twoCandidateHost) (priceBias fallbackAlgo)
       sampleTarget (sampleCandidate "A")) = true.
Proof.
  exact (price_bias_is_monotone (H := twoCandidateHost)
           (priceBias fallbackAlgo) sampleTarget twinCandidate
           (sampleCandidate "A") 300000 300000 310000
           eq_refl eq_refl eq_refl eq_refl eq_refl
           ltac:(discriminate)).
Defined.
